(** * RTSP camera driver: shared capture loop, frame buffer and subscriptions

    Shallow embedding of [src/iot_driver_copilot/rtsp_camera/driver.py].

    The Python class [CameraStream] becomes a record; the objects the class
    talks to (the [cv2.VideoCapture] handles, the capture threads created by
    [start], the calls made to the outside) live in a [World] around it.
    Methods that run under [self.lock], and methods called by one request
    at a time, are functions [World -> World]; the body of the capture
    thread [_update] is a step function, one step per source statement, so
    that other threads can be scheduled between two statements. *)

From stdpp Require Import base list strings gmap.
From Stdlib Require Import ZArith QArith Lia.

Local Open Scope string_scope.
Local Open Scope Z_scope.

(** ** Data model *)

(** A [cv2.VideoCapture] object is identified by its creation rank. *)
Definition handle := nat.
Bind Scope nat_scope with handle.

(** Statements of [CameraStream._update], named by their source line.
    [L61] carries the local variable [frame] bound at line 54; lines 55-56
    (the test of the local [ret]) are folded into [L54], lines 61-63 (one
    critical section) into [L61]. *)
Inductive pc {Frame : Type} : Type :=
| L47 | L48 | L49 | L50 | L51
| L53 | L54 | L57 | L58 | L59
| L61 (f : Frame) | L64
| L65 | L66 | L67
| Done      (* the thread function returned *)
| Crashed.  (* uncaught AttributeError: method call on [self.cap = None] *)
Arguments pc : clear implicits.

(** What is kept on record of an execution: the calls made to the
    outside, the calls of the two bookkeeping methods, and the two writes
    of the capture thread that the properties speak about. *)
Inductive event {Frame : Type} : Type :=
| EvOpen (h : handle) (ok : bool)   (* cv2.VideoCapture(self.rtsp_url) *)
| EvRelease (h : handle)            (* cap.release() *)
| EvSleep (d : Q)                   (* time.sleep(d), in seconds *)
| EvSpawn (tid : nat)               (* threading.Thread(target=_update).start() *)
| EvStore (f : Frame)               (* self.frame = frame *)
| EvGiveUp (tid : nat)              (* line 51: initial open failed *)
| EvAddSubscriber
| EvRemoveSubscriber.
Arguments event : clear implicits.

(** What the outside world answers to one statement of the capture
    thread: whether a [VideoCapture] constructed now is opened, what a
    [read()] on an opened capture returns, and the clock. *)
Record input {Frame : Type} : Type := mkInput {
  open_ok : bool;
  read_result : option Frame;
  now : Q
}.
Arguments input : clear implicits.
Arguments mkInput {Frame}.

Section Camera.
Context {Frame : Type}.

(** Fields of [CameraStream] (lines 21-30). [lock] is rendered by the
    atomicity of the functions that take it, [thread] by the thread table
    of the [World]. *)
Record CameraStream : Type := mkCamera {
  rtsp_url : string;
  cap : option handle;
  running : bool;
  frame : option Frame;
  last_frame_time : Q;
  fps : Z;
  subscribers : Z
}.

Record World : Type := mkWorld {
  cam : CameraStream;
  heap : list bool;            (* VideoCapture objects: isOpened() *)
  threads : list (pc Frame);   (* capture threads, in start order *)
  log : list (event Frame)     (* most recent call first *)
}.

(** [CameraStream.__init__] *)
Definition init_camera (url : string) : CameraStream :=
  mkCamera url None false None 0%Q 15 0.

Definition init (url : string) : World :=
  mkWorld (init_camera url) [] [] [].

(** Field updates. *)
Definition set_cap (c : option handle) (s : CameraStream) : CameraStream :=
  mkCamera (rtsp_url s) c (running s) (frame s) (last_frame_time s) (fps s)
           (subscribers s).
Definition set_running (b : bool) (s : CameraStream) : CameraStream :=
  mkCamera (rtsp_url s) (cap s) b (frame s) (last_frame_time s) (fps s)
           (subscribers s).
Definition set_frame (f : Frame) (t : Q) (s : CameraStream) : CameraStream :=
  mkCamera (rtsp_url s) (cap s) (running s) (Some f) t (fps s) (subscribers s).
Definition set_subscribers (n : Z) (s : CameraStream) : CameraStream :=
  mkCamera (rtsp_url s) (cap s) (running s) (frame s) (last_frame_time s)
           (fps s) n.

Definition with_cam (f : CameraStream → CameraStream) (w : World) : World :=
  mkWorld (f (cam w)) (heap w) (threads w) (log w).
Definition emit (e : event Frame) (w : World) : World :=
  mkWorld (cam w) (heap w) (threads w) (e :: log w).
Definition goto (tid : nat) (p : pc Frame) (w : World) : World :=
  mkWorld (cam w) (heap w) (<[tid := p]> (threads w)) (log w).

(** [cap.isOpened()] *)
Definition is_opened (w : World) (h : handle) : bool :=
  default false (heap w !! h).

(** [cv2.VideoCapture(url)]: a new object, opened or not. *)
Definition new_capture (ok : bool) (w : World) : World :=
  let h := length (heap w) in
  mkWorld (set_cap (Some h) (cam w)) (heap w ++ [ok]) (threads w)
          (EvOpen h ok :: log w).

(** [cap.release()] on the object [h]. *)
Definition release (h : handle) (w : World) : World :=
  mkWorld (cam w) (<[h := false]> (heap w)) (threads w) (EvRelease h :: log w).

(** [time.sleep(d)] *)
Definition sleep (d : Q) (w : World) : World := emit (EvSleep d) w.

(** [1.0 / self.fps], the pause between two frames. *)
Definition frame_interval (w : World) : Q := (1 / inject_Z (fps (cam w)))%Q.

(** ** Methods of [CameraStream] *)

(** [start] (lines 32-37), one critical section. *)
Definition start (w : World) : World :=
  if running (cam w) then w
  else mkWorld (set_running true (cam w)) (heap w) (threads w ++ [L47])
               (EvSpawn (length (threads w)) :: log w).

(** [stop] (lines 39-44), one critical section. *)
Definition stop (w : World) : World :=
  let w1 := with_cam (set_running false) w in
  match cap (cam w1) with
  | Some h => with_cam (set_cap None) (release h w1)
  | None => w1
  end.

(** [add_subscriber] (lines 82-85), run by one caller without
    interference. *)
Definition add_subscriber (w : World) : World :=
  let w1 := with_cam (λ s, set_subscribers (subscribers s + 1) s)
                     (emit EvAddSubscriber w) in
  if (subscribers (cam w1) =? 1)%Z then start w1 else w1.

(** [remove_subscriber] (lines 87-90), run by one caller without
    interference. *)
Definition remove_subscriber (w : World) : World :=
  let w1 := with_cam (λ s, set_subscribers (Z.max 0 (subscribers s - 1)) s)
                     (emit EvRemoveSubscriber w) in
  if (subscribers (cam w1) =? 0)%Z then stop w1 else w1.

(** [get_frame] (lines 69-71). Frames are immutable values here, so
    [frame.copy()] is the frame itself. *)
Definition get_frame (w : World) : option Frame := frame (cam w).

(** ** The capture thread [_update] (lines 46-67) *)

(** A method call on [self.cap]: an [AttributeError] ends the thread when
    the field holds [None]. *)
Definition on_cap (tid : nat) (w : World) (k : handle → World) : World :=
  match cap (cam w) with
  | Some h => k h
  | None => goto tid Crashed w
  end.

(** One statement of [_update], executed by thread [tid] at point [p]. *)
Definition statement (p : pc Frame) (i : input Frame) (tid : nat) (w : World)
  : World :=
  match p with
  | L47 => goto tid L48 (new_capture (open_ok i) w)
  | L48 => on_cap tid w (λ h,
             if is_opened w h then goto tid L53 w else goto tid L49 w)
  | L49 => on_cap tid w (λ h, goto tid L50 (release h w))
  | L50 => goto tid L51 (with_cam (set_cap None) w)
  | L51 => goto tid Done
             (emit (EvGiveUp tid) (with_cam (set_running false) w))
  | L53 => if running (cam w) then goto tid L54 w else goto tid L65 w
  | L54 => on_cap tid w (λ h,
             if is_opened w h then
               match read_result i with
               | Some f => goto tid (L61 f) w
               | None => goto tid L57 w
               end
             else goto tid L57 w)
  | L57 => on_cap tid w (λ h, goto tid L58 (release h w))
  | L58 => goto tid L59 (sleep 1 w)
  | L59 => goto tid L53 (new_capture (open_ok i) w)
  | L61 f => goto tid L64
               (emit (EvStore f) (with_cam (set_frame f (now i)) w))
  | L64 => goto tid L53 (sleep (frame_interval w) w)
  | L65 => match cap (cam w) with
           | Some _ => goto tid L66 w
           | None => goto tid Done w
           end
  | L66 => on_cap tid w (λ h, goto tid L67 (release h w))
  | L67 => goto tid Done (with_cam (set_cap None) w)
  | Done => w
  | Crashed => w
  end.

(** The scheduler lets thread [tid] execute its next statement; nothing
    happens when there is no such thread. *)
Definition loop_step (i : input Frame) (tid : nat) (w : World) : World :=
  match threads w !! tid with
  | None => w
  | Some p => statement p i tid w
  end.

(** ** Executions: calls of the two bookkeeping methods and statements of
    capture threads, in any order *)

Inductive op : Type :=
| Subscribe
| Unsubscribe
| Loop (tid : nat) (i : input Frame).

Definition exec (w : World) (o : op) : World :=
  match o with
  | Subscribe => add_subscriber w
  | Unsubscribe => remove_subscriber w
  | Loop tid i => loop_step i tid w
  end.

Definition run (tr : list op) (w : World) : World := foldl exec w tr.

End Camera.

Arguments CameraStream : clear implicits.
Arguments World : clear implicits.
Arguments op : clear implicits.

(** ** The HTTP handlers (lines 106-139) *)

(** Statements of capture threads that other threads execute while a
    request handler sleeps. *)
Definition schedule (Frame : Type) : Type := list (nat * input Frame).

Definition run_threads {Frame : Type} (sch : schedule Frame)
    (w : World Frame) : World Frame :=
  foldl (λ w' s, loop_step (snd s) (fst s) w') w sch.

(** What a handler hands back to Flask. *)
Inductive response : Type :=
| SendFile (body : string) (mimetype : string) (as_attachment : bool)
           (download_name : string)
| Abort (status : Z) (description : string).

Definition crlf : string :=
  String (Ascii.ascii_of_nat 13) (String (Ascii.ascii_of_nat 10) EmptyString).

(** The multipart part yielded at lines 129-130. *)
Definition mjpeg_part (jpeg : string) : string :=
  "--frame" ++ crlf ++ "Content-Type: image/jpeg" ++ crlf ++ crlf
    ++ jpeg ++ crlf.

(** Where the generator [gen_mjpeg_stream] stands. *)
Inductive gen_pc : Type :=
| GenCreated     (* not started: no statement executed yet *)
| GenRunning     (* inside [while True], before line 125 *)
| GenSuspended   (* at the [yield] of line 129 *)
| GenFinished.   (* returned or raised *)

(** What happens to the generator and around it. *)
Inductive gen_op {Frame : Type} : Type :=
| GNext                              (* the consumer asks for the next part *)
| GTick                              (* one pass through lines 125-130 *)
| GRaise                             (* an exception inside the [try] body *)
| GClose                             (* close(): GeneratorExit at the yield *)
| GThrow                             (* throw(exc) at the yield *)
| GLoop (tid : nat) (i : input Frame). (* a capture thread statement *)
Arguments gen_op : clear implicits.

Section Http.
Context {Frame : Type}.

(** [cv2.imencode('.jpg', frame, [IMWRITE_JPEG_QUALITY, q])] followed by
    [tobytes()]: the encoder is outside the repository; [None] stands for
    [ret = False]. *)
Variable imencode : Z → Frame → option string.
Variable JPEG_QUALITY : Z.

(** [get_jpeg] (lines 73-80) *)
Definition get_jpeg (w : World Frame) : option string :=
  match get_frame w with
  | None => None
  | Some f => imencode JPEG_QUALITY f
  end.

(** [capture] (lines 106-119); [sch] is what the capture threads do
    during [time.sleep(0.1)]. *)
Definition capture (sch : schedule Frame) (w : World Frame)
  : World Frame * response :=
  let w1 := add_subscriber w in
  let w2 := run_threads sch (sleep (1 # 10) w1) in
  let jpeg := get_jpeg w2 in
  let w3 := remove_subscriber w2 in
  (w3, match jpeg with
       | None => Abort 503 "Camera not ready"
       | Some j => SendFile j "image/jpeg" true "capture.jpg"
       end).


(** The generator [gen_mjpeg_stream] (lines 121-134) with the parts it
    has yielded, most recent first. *)
Record Stream : Type := mkStream {
  world : World Frame;
  gpc : gen_pc;
  parts : list string
}.

(** The [finally] clause, line 134. *)
Definition gen_finally (g : Stream) : Stream :=
  mkStream (remove_subscriber (world g)) GenFinished (parts g).

Definition gen_step (g : Stream) (o : gen_op Frame) : Stream :=
  match o, gpc g with
  | GNext, GenCreated =>                         (* line 122 *)
      mkStream (add_subscriber (world g)) GenRunning (parts g)
  | GNext, GenSuspended =>                       (* line 132 *)
      mkStream (sleep (frame_interval (world g)) (world g)) GenRunning
               (parts g)
  | GTick, GenRunning =>
      match get_jpeg (world g) with
      | None =>                                  (* lines 126-128 *)
          mkStream (sleep (1 # 10) (world g)) GenRunning (parts g)
      | Some j =>                                (* lines 129-130 *)
          mkStream (world g) GenSuspended (mjpeg_part j :: parts g)
      end
  | GRaise, GenRunning => gen_finally g
  | GClose, GenSuspended => gen_finally g
  | GThrow, GenSuspended => gen_finally g
  | GClose, GenCreated => mkStream (world g) GenFinished (parts g)
  | GThrow, GenCreated => mkStream (world g) GenFinished (parts g)
  | GLoop tid i, _ =>
      mkStream (loop_step i tid (world g)) (gpc g) (parts g)
  | _, _ => g
  end.

Definition gen_run (ops : list (gen_op Frame)) (g : Stream) : Stream :=
  foldl gen_step g ops.

(** [gen_mjpeg_stream()]: calling the function only creates the
    generator. *)
Definition gen_mjpeg_stream (w : World Frame) : Stream :=
  mkStream w GenCreated [].

End Http.

Arguments Stream : clear implicits.

(** ** The route [/stream] (lines 136-139) *)

Section Routes.
Context {Frame : Type}.

(** [Response(iterable, mimetype=...)] *)
Record StreamResponse : Type := mkStreamResponse {
  response_iter : Stream Frame;
  response_mimetype : string
}.

Definition stream (w : World Frame) : StreamResponse :=
  mkStreamResponse (gen_mjpeg_stream w)
                   "multipart/x-mixed-replace; boundary=frame".

End Routes.

Arguments StreamResponse : clear implicits.


(** ** Start-up (lines 10-16 and 141-142) *)

Module Startup.

Inductive exception : Type :=
| RuntimeError (msg : string)
| ValueError.

(** The module-level settings. *)
Record Settings : Type := mkSettings {
  RTSP_URL : string;
  SERVER_HOST : string;
  SERVER_PORT : Z;
  JPEG_QUALITY : Z
}.

Inductive outcome : Type :=
| Raise (e : exception)       (* the module body raised: nothing is served *)
| Serve (s : Settings).       (* [app.run(host, port)] is reached *)

Section Env.

(** Python's [int] applied to a string; [None] stands for [ValueError]. *)
Variable int : string → option Z.

(** [os.environ.get(k)] and [os.environ.get(k, d)] *)
Definition environ_get (environ : gmap string string) (k : string)
  : option string := environ !! k.
Definition environ_get_default (environ : gmap string string) (k d : string)
  : string := default d (environ !! k).

(** The module body, in statement order: lines 10, 11, 12, 13, 15-16. *)
Definition startup (environ : gmap string string) : outcome :=
  let url := environ_get environ "RTSP_URL" in
  let host := environ_get_default environ "SERVER_HOST" "0.0.0.0" in
  match int (environ_get_default environ "SERVER_PORT" "8080") with
  | None => Raise ValueError
  | Some port =>
    match int (environ_get_default environ "JPEG_QUALITY" "80") with
    | None => Raise ValueError
    | Some quality =>
      match url with
      | None => Raise (RuntimeError "RTSP_URL environment variable must be set")
      | Some u => Serve (mkSettings u host port quality)
      end
    end
  end.

End Env.

(** A plain reading of decimal numerals, used to run [startup]. *)
Fixpoint digits (s : string) (acc : Z) : option Z :=
  match s with
  | EmptyString => Some acc
  | String c s' =>
      let n := Z.of_nat (Ascii.nat_of_ascii c) in
      if (48 <=? n) && (n <=? 57) then digits s' (10 * acc + (n - 48))
      else None
  end.

Definition decimal (s : string) : option Z :=
  match s with
  | EmptyString => None
  | _ => digits s 0
  end.

End Startup.

(** ** The bookkeeping methods, statement by statement

    [add_subscriber] and [remove_subscriber] take no lock: between the
    read and the write of [self.subscribers] (line 83, line 88), and
    between the write and the test that follows, another request thread
    can run. *)

Inductive rpc : Type :=
| A83_load               (* line 83: read [self.subscribers] *)
| A83_store (n : Z)      (* line 83: write [n + 1] *)
| A84                    (* line 84: [if self.subscribers == 1] *)
| A85                    (* line 85: [self.start()] *)
| R88_load               (* line 88: read [self.subscribers] *)
| R88_store (n : Z)      (* line 88: write [max(0, n - 1)] *)
| R89                    (* line 89: [if self.subscribers == 0] *)
| R90                    (* line 90: [self.stop()] *)
| Returned.

Section Requests.
Context {Frame : Type}.

Definition request_statement (p : rpc) (w : World Frame)
  : World Frame * rpc :=
  match p with
  | A83_load => (emit EvAddSubscriber w, A83_store (subscribers (cam w)))
  | A83_store n => (with_cam (set_subscribers (n + 1)) w, A84)
  | A84 => (w, if (subscribers (cam w) =? 1)%Z then A85 else Returned)
  | A85 => (start w, Returned)
  | R88_load => (emit EvRemoveSubscriber w, R88_store (subscribers (cam w)))
  | R88_store n => (with_cam (set_subscribers (Z.max 0 (n - 1))) w, R89)
  | R89 => (w, if (subscribers (cam w) =? 0)%Z then R90 else Returned)
  | R90 => (stop w, Returned)
  | Returned => (w, Returned)
  end.

(** The world together with the request threads inside the two methods. *)
Definition Server : Type := World Frame * list rpc.

(** Request thread [rid] executes its next statement. *)
Definition request_step (c : Server) (rid : nat) : Server :=
  match snd c !! rid with
  | None => c
  | Some p =>
      let r := request_statement p (fst c) in
      (fst r, <[rid := snd r]> (snd c))
  end.

Definition interleave (sch : list nat) (c : Server) : Server :=
  foldl request_step c sch.

(** How many capture threads were started. *)
Definition started (w : World Frame) : nat := length (threads w).

End Requests.

(** ** Notions the properties are stated with *)

Section Notions.
Context {Frame : Type}.



(** The frame of the most recent [self.frame = frame], if any. *)
Fixpoint last_stored (l : list (event Frame)) : option Frame :=
  match l with
  | [] => None
  | EvStore f :: _ => Some f
  | _ :: l' => last_stored l'
  end.

(** The part of a [World] that the program owns: the object, the captures
    and the threads (the record of calls made is left out). *)
Definition same_state (w1 w2 : World Frame) : Prop :=
  cam w1 = cam w2 ∧ heap w1 = heap w2 ∧ threads w1 = threads w2.

(** Program points of the [while self.running] loop (lines 53-64). *)
Definition in_loop (p : pc Frame) : bool :=
  match p with
  | L53 | L54 | L57 | L58 | L59 | L61 _ | L64 => true
  | _ => false
  end.

Definition finished (p : pc Frame) : bool :=
  match p with Done | Crashed => true | _ => false end.



Definition store_round (tid : nat) (w : World Frame) (i : input Frame)
  : World Frame := Nat.iter 3 (loop_step i tid) w.



(** Going from [w] to [w'] the object dropped its capture, the capture it
    held is no longer opened, and the frame buffer was not touched. *)
Definition released_and_stale (w w' : World Frame) : Prop :=
  cap (cam w') = None ∧
  (∀ h, cap (cam w) = Some h → is_opened w' h = false) ∧
  frame (cam w') = frame (cam w) ∧
  last_frame_time (cam w') = last_frame_time (cam w) ∧
  get_frame w' = get_frame w.


(** Two worlds that differ at most in the subscription count and in the
    record of calls. *)
Definition same_but_count (w1 w2 : World Frame) : Prop :=
  set_subscribers 0 (cam w1) = set_subscribers 0 (cam w2) ∧
  heap w1 = heap w2 ∧ threads w1 = threads w2.

(** Calls of the two bookkeeping methods on record. *)
Fixpoint subscribed (l : list (event Frame)) : nat :=
  match l with
  | [] => 0
  | EvAddSubscriber :: l' => S (subscribed l')
  | _ :: l' => subscribed l'
  end.

Fixpoint unsubscribed (l : list (event Frame)) : nat :=
  match l with
  | [] => 0
  | EvRemoveSubscriber :: l' => S (unsubscribed l')
  | _ :: l' => unsubscribed l'
  end.

(** The calls a generator created in world [w0] has made when it stands
    at [g]: none before it is started, one [add_subscriber] while it is
    active, and once it is finished as many [remove_subscriber] as
    [add_subscriber]. *)
Definition stream_balance (w0 : World Frame) (g : Stream Frame) : Prop :=
  let a := subscribed (log (world g)) in
  let r := unsubscribed (log (world g)) in
  let a0 := subscribed (log w0) in
  let r0 := unsubscribed (log w0) in
  match gpc g with
  | GenCreated => a = a0 ∧ r = r0
  | GenRunning | GenSuspended => a = S a0 ∧ r = r0
  | GenFinished => (a = a0 ∧ r = r0) ∨ (a = S a0 ∧ r = S r0)
  end.

(** [remove_subscriber] as a floor-at-zero decrement that does nothing
    at count 0. *)
Definition unsubscribe_floor_noop (w : World Frame) : Prop :=
  subscribers (cam (remove_subscriber w))
    = Z.max 0 (subscribers (cam w) - 1) ∧
  (subscribers (cam w) = 0 → same_state (remove_subscriber w) w).

End Notions.

(** ** Concrete inputs

    Frames are numbered; the camera is at [camera_url]. *)

Definition camera_url : string := "rtsp://camera/stream".

Definition answers (ok : bool) (r : option nat) : input nat :=
  mkInput ok r 0%Q.

(** A subscriber arrives and the thread opens the source: the thread is
    at the loop test, holding capture 0. *)
Definition streaming : World nat :=
  run [Subscribe; Loop 0%nat (answers true None);
       Loop 0%nat (answers true None)] (init camera_url).

(** The same, after frame 7 was read and stored and the thread slept. *)
Definition streaming7 : World nat :=
  loop_step (answers true None) 0
            (store_round 0 streaming (answers true (Some 7%nat))).

(** A subscriber arrives and the source cannot be opened. *)
Definition failed_open : list (op nat) :=
  [Subscribe; Loop 0%nat (answers false None); Loop 0%nat (answers false None);
   Loop 0%nat (answers false None); Loop 0%nat (answers false None);
   Loop 0%nat (answers false None)].

(** A subscriber comes and goes before the thread has opened the
    source; the thread then opens it. *)
Definition late_open : World nat :=
  run [Subscribe; Unsubscribe; Loop 0%nat (answers true None)]
      (init camera_url).

(** An encoder that fails on frame 0. *)
Definition encode (q : Z) (f : nat) : option string :=
  match f with O => None | _ => Some "JPEG" end.

(** All the orders in which two threads can execute [n] statements. *)
Fixpoint orders (n : nat) : list (list nat) :=
  match n with
  | O => [[]]
  | S n' => map (cons 0%nat) (orders n') ++ map (cons 1%nat) (orders n')
  end.

(** ** Further notions *)

Section FurtherNotions.
Context {Frame : Type}.


(** How many of its own statements a capture thread at [p] executes at
    most before it ends, once the running flag is cleared. *)
Definition steps_left (p : pc Frame) : nat :=
  match p with
  | Done | Crashed => 0
  | L67 | L51 => 1
  | L66 | L50 => 2
  | L65 | L49 => 3
  | L53 => 4
  | L64 | L59 | L48 => 5
  | L61 _ | L58 | L47 => 6
  | L57 => 7
  | L54 => 8
  end.

(** How many of its own statements a capture thread at [p] executes at
    least before the one that writes the frame buffer; [None] when it can
    no longer get there. *)
Definition steps_to_store (p : pc Frame) : option nat :=
  match p with
  | L61 _ => Some 0%nat
  | L54 => Some 1%nat
  | L53 => Some 2%nat
  | L64 | L59 | L48 => Some 3%nat
  | L58 | L47 => Some 4%nat
  | L57 => Some 5%nat
  | _ => None
  end.

(** Thread [tid] executes [n] statements in a row, with the answers
    [ins] of the outside world (the last answer is reused when [ins] runs
    out; [d] when it is empty). *)
Fixpoint thread_steps (tid : nat) (d : input Frame) (ins : list (input Frame))
    (n : nat) (w : World Frame) : World Frame :=
  match n with
  | O => w
  | S n' =>
      match ins with
      | [] => thread_steps tid d [] n' (loop_step d tid w)
      | i :: ins' => thread_steps tid i ins' n' (loop_step i tid w)
      end
  end.

(** At most one capture is opened, and it is the one in [self.cap]. *)
Definition one_open_capture (w : World Frame) : Prop :=
  ∀ h, is_opened w h = true → cap (cam w) = Some h.

(** No capture is opened. *)
Definition all_closed (w : World Frame) : Prop :=
  ∀ h, is_opened w h = false.

(** Points of [_update] just after [self.cap.release()] (lines 49, 57,
    66) and before the field is overwritten. *)
Definition after_release (p : pc Frame) : bool :=
  match p with L50 | L58 | L59 | L67 => true | _ => false end.

(** What holds as long as a single capture thread was started: only the
    capture in [self.cap] can be open; it is closed where the thread has
    just released it, and nothing is open before the thread's first
    statement. *)
Definition single_thread_inv (w : World Frame) : Prop :=
  match threads w with
  | [] => all_closed w ∧ cap (cam w) = None
  | [p] =>
      one_open_capture w ∧
      (after_release p = true →
         ∀ h, cap (cam w) = Some h → is_opened w h = false) ∧
      (p = L47 → all_closed w)
  | _ => True
  end.



(** The value of the count a request thread has read and not yet written
    back is not negative. *)
Definition pending_ok (p : rpc) : Prop :=
  match p with
  | A83_store n | R88_store n => 0 ≤ n
  | _ => True
  end.


(** Every capture thread is at least [n] of its own statements away from
    writing the frame buffer. *)
Definition far_from_store (n : nat) (w : World Frame) : Prop :=
  ∀ tid p k, threads w !! tid = Some p → steps_to_store p = Some k →
             (n ≤ k)%nat.


(** Points of [_update] on the way out after a failed initial open
    (lines 49-52). *)
Definition giving_up (p : pc Frame) : bool :=
  match p with L49 | L50 | L51 | Done => true | _ => false end.

(** Points that hold a capture in [self.cap] as long as [stop] is not
    called. *)
Definition holds_capture (p : pc Frame) : bool :=
  match p with L48 | L49 => true | _ => in_loop p end.

(** The initial open and its test (lines 47-48). *)
Definition opening (p : pc Frame) : bool :=
  match p with L47 | L48 => true | _ => false end.

(** What holds of the only capture thread while subscribers remain. *)
Definition attended (w : World Frame) : Prop :=
  ∃ p, threads w = [p] ∧
       (opening p || in_loop p || giving_up p = true) ∧
       (holds_capture p = true → is_Some (cap (cam w))) ∧
       (giving_up p = false → running (cam w) = true) ∧
       (p = Done → running (cam w) = false ∧ EvGiveUp 0 ∈ log w).


End FurtherNotions.


(** * Properties *)

Section Properties.
Context {Frame : Type}.
Implicit Types (w : World Frame) (i : input Frame) (tr : list (op Frame)).

Ltac break_world w :=
  let u := fresh "u" in let c := fresh "c" in let r := fresh "r" in
  let f := fresh "f" in let t := fresh "t" in let fp := fresh "fp" in
  let s := fresh "s" in let hp := fresh "hp" in let th := fresh "th" in
  let lg := fresh "lg" in
  destruct w as [[u c r f t fp s] hp th lg].

(** *** The bookkeeping methods *)

Lemma add_subscriber_count w :
  subscribers (cam (add_subscriber w)) = subscribers (cam w) + 1.
Proof.
  unfold add_subscriber, start; cbn.
  destruct (_ =? 1)%Z; [destruct (running (cam w))|]; reflexivity.
Qed.

Lemma remove_subscriber_count w :
  subscribers (cam (remove_subscriber w)) = Z.max 0 (subscribers (cam w) - 1).
Proof.
  unfold remove_subscriber, stop; cbn.
  destruct (_ =? 0)%Z; [destruct (cap (cam w))|]; reflexivity.
Qed.


Lemma remove_subscriber_stops w :
  subscribers (cam w) ≤ 1 →
  running (cam (remove_subscriber w)) = false ∧
  cap (cam (remove_subscriber w)) = None.
Proof.
  intros Hs. break_world w; cbn in Hs.
  unfold remove_subscriber, stop; cbn.
  replace (Z.max 0 (s - 1)) with 0 by lia; cbn.
  destruct c; cbn; auto.
Qed.

(** C4 (amended). [remove_subscriber] sets the count to
    [max(0, count - 1)], so the count never goes below zero, and it is a
    total function: no call raises. When the count is already 0 the count
    stays 0 and [stop] runs once more, which clears the running flag and
    releases a capture still held; the call changes nothing exactly when
    the loop is already dormant and holds no capture. *)
Theorem remove_subscriber_floor w :
  let w' := remove_subscriber w in
  subscribers (cam w') = Z.max 0 (subscribers (cam w) - 1) ∧
  0 ≤ subscribers (cam w') ∧
  (subscribers (cam w) ≤ 1 → running (cam w') = false ∧ cap (cam w') = None) ∧
  (subscribers (cam w) = 0 →
     w' = stop (emit EvRemoveSubscriber w) ∧
     (same_state w' w ↔ running (cam w) = false ∧ cap (cam w) = None)).
Proof.
  cbn zeta. rewrite remove_subscriber_count.
  split; [reflexivity|]. split; [lia|]. split.
  - apply remove_subscriber_stops.
  - intros Hs. break_world w; cbn in Hs; subst s.
    unfold remove_subscriber, stop, same_state; cbn.
    split; [destruct c; reflexivity|].
    destruct c as [h|]; cbn; split.
    + intros (Hc & _ & _); discriminate Hc.
    + intros (_ & Hc); discriminate Hc.
    + intros (Hc & _ & _). injection Hc as ->. auto.
    + intros (-> & _). auto.
Qed.

(** *** The running flag and the subscription count *)







(** *** The frame buffer *)

Lemma last_stored_run_inv w o :
  get_frame w = last_stored (log w) →
  get_frame (exec w o) = last_stored (log (exec w o)).
Proof.
  break_world w. unfold get_frame. cbn. intros Hf.
  destruct o as [| |tid i]; cbn.
  - unfold add_subscriber, start; cbn.
    destruct (_ =? 1)%Z; [destruct r|]; cbn; exact Hf.
  - unfold remove_subscriber, stop; cbn.
    destruct (_ =? 0)%Z; [destruct c|]; cbn; exact Hf.
  - unfold loop_step, statement, on_cap; cbn.
    destruct (th !! tid) as [[]|]; cbn; auto;
      repeat (match goal with |- context [match ?x with _ => _ end] =>
                destruct x end; cbn); auto.
Qed.

Lemma last_stored_none (l : list (event Frame)) :
  (∀ f, EvStore f ∉ l) → last_stored l = None.
Proof.
  induction l as [|e l IH]; intros H; [reflexivity|].
  assert (Hl : ∀ f, EvStore f ∉ l).
  { intros f Hf. apply (H f). apply elem_of_cons. right. exact Hf. }
  destruct e; cbn; auto.
  exfalso. eapply H. apply elem_of_cons. left. reflexivity.
Qed.

Lemma last_stored_some (l : list (event Frame)) f :
  EvStore f ∈ l → is_Some (last_stored l).
Proof.
  induction l as [|e l IH]; intros H.
  - apply elem_of_nil in H. contradiction.
  - apply elem_of_cons in H as [<-|H]; [cbn; eauto|].
    destruct e; cbn; eauto.
Qed.

(** C6. In every execution [get_frame] returns the frame of the most
    recent buffer write: nothing as long as no frame was written, a frame
    as soon as one was. A successful [read()] at line 54 is written by the
    next statement of that thread (lines 61-63), after which [get_frame]
    returns it. *)
Theorem get_frame_latest url tr :
  let w := run tr (init (Frame:=Frame) url) in
  get_frame w = last_stored (log w) ∧
  ((∀ f, EvStore f ∉ log w) → get_frame w = None) ∧
  (∀ f, EvStore f ∈ log w → is_Some (get_frame w)) ∧
  (∀ tid i h f,
     threads w !! tid = Some L54 → cap (cam w) = Some h →
     is_opened w h = true → read_result i = Some f →
     ∀ i', get_frame (loop_step i' tid (loop_step i tid w)) = Some f).
Proof.
  cbn zeta.
  assert (Hl : get_frame (run tr (init (Frame:=Frame) url))
               = last_stored (log (run tr (init (Frame:=Frame) url)))).
  { generalize (init (Frame:=Frame) url),
      (eq_refl : get_frame (init (Frame:=Frame) url)
                 = last_stored (log (init (Frame:=Frame) url))).
    induction tr as [|o tr IH]; intros w Hw; [exact Hw|].
    cbn. apply IH, last_stored_run_inv, Hw. }
  split; [exact Hl|]. split; [|split].
  - intros H. rewrite Hl. apply last_stored_none, H.
  - intros f H. rewrite Hl. eapply last_stored_some, H.
  - intros tid i h f Hpc Hcap Hop Hrd i'.
    unfold loop_step at 2. rewrite Hpc. unfold statement, on_cap.
    rewrite Hcap, Hop, Hrd.
    unfold loop_step, goto; cbn.
    rewrite list_lookup_insert_eq by (eapply lookup_lt_Some; eauto).
    reflexivity.
Qed.

(** *** Reconnection *)





Lemma loop_step_at p i tid w :
  threads w !! tid = Some p → loop_step i tid w = statement p i tid w.
Proof. intros H. unfold loop_step. rewrite H. reflexivity. Qed.

Lemma goto_at tid p w :
  (tid < length (threads w))%nat → threads (goto tid p w) !! tid = Some p.
Proof. intros H. cbn. apply list_lookup_insert_eq, H. Qed.

Ltac at_pc Hlt :=
  first [ eassumption
        | cbn; apply list_lookup_insert_eq; rewrite ?length_insert;
          exact Hlt ].

Ltac next_statement p Hlt :=
  erewrite (loop_step_at p) by at_pc Hlt; cbn [statement].





(** *** Leaving the loop *)

Lemma is_opened_release h w : is_opened (release h w) h = false.
Proof.
  unfold is_opened, release; cbn.
  destruct (decide (h < length (heap w))%nat) as [Hlt|Hge].
  - rewrite list_lookup_insert_eq by exact Hlt. reflexivity.
  - rewrite list_insert_ge by lia. rewrite lookup_ge_None_2 by lia. reflexivity.
Qed.

Lemma stop_released w : released_and_stale w (stop w) ∧ running (cam (stop w)) = false.
Proof.
  unfold released_and_stale, stop. cbn.
  destruct (cap (cam w)) as [h|] eqn:Hc; cbn.
  - repeat split; auto. intros h' [= E]; subst h'.
    apply (is_opened_release h (with_cam (set_running false) w)).
  - repeat split; auto. intros h' [=].
Qed.

Lemma loop_end_released tid w i :
  threads w !! tid = Some L65 →
  let w' := Nat.iter 3 (loop_step i tid) w in
  threads w' !! tid = Some Done ∧ released_and_stale w w' ∧
  running (cam w') = running (cam w).
Proof.
  intros Hp.
  assert (Hlt : (tid < length (threads w))%nat) by (eapply lookup_lt_Some; eauto).
  cbn zeta. rewrite Nat.iter_succ_r. next_statement (@L65 Frame) Hlt.
  destruct (cap (cam w)) as [h|] eqn:Hc.
  - rewrite Nat.iter_succ_r. next_statement (@L66 Frame) Hlt.
    unfold on_cap. cbn [cam goto]. rewrite Hc.
    rewrite Nat.iter_succ_r. next_statement (@L67 Frame) Hlt.
    cbn [Nat.iter]. split; [at_pc Hlt|]. split; [|reflexivity].
    unfold released_and_stale. cbn. repeat split; auto.
    intros h' Hh'. rewrite Hc in Hh'. injection Hh' as E; subst h'.
    apply (is_opened_release h w).
  - rewrite Nat.iter_succ_r. next_statement (@Done Frame) Hlt.
    rewrite Nat.iter_succ_r. next_statement (@Done Frame) Hlt.
    cbn [Nat.iter]. split; [at_pc Hlt|]. split; [|reflexivity].
    unfold released_and_stale. cbn. rewrite Hc. repeat split; auto.
    intros h' [=].
Qed.

Lemma open_failure_released tid w i h :
  threads w !! tid = Some L48 → cap (cam w) = Some h →
  is_opened w h = false →
  let w' := Nat.iter 4 (loop_step i tid) w in
  threads w' !! tid = Some Done ∧ released_and_stale w w' ∧
  running (cam w') = false.
Proof.
  intros Hp Hc Ho.
  assert (Hlt : (tid < length (threads w))%nat) by (eapply lookup_lt_Some; eauto).
  cbn zeta. rewrite Nat.iter_succ_r. next_statement (@L48 Frame) Hlt.
  unfold on_cap. rewrite Hc, Ho.
  rewrite Nat.iter_succ_r. next_statement (@L49 Frame) Hlt.
  unfold on_cap. cbn [cam goto]. rewrite Hc.
  rewrite Nat.iter_succ_r. next_statement (@L50 Frame) Hlt.
  rewrite Nat.iter_succ_r. next_statement (@L51 Frame) Hlt.
  cbn [Nat.iter]. split; [at_pc Hlt|]. split; [|reflexivity].
  unfold released_and_stale. cbn. repeat split; auto.
  intros h' Hh'. rewrite Hc in Hh'. injection Hh' as E; subst h'.
  apply (is_opened_release h w).
Qed.

Lemma frame_only_stored tid w i :
  (∀ f, threads w !! tid ≠ Some (L61 f)) →
  frame (cam (loop_step i tid w)) = frame (cam w) ∧
  last_frame_time (cam (loop_step i tid w)) = last_frame_time (cam w).
Proof.
  intros Hn. unfold loop_step.
  destruct (threads w !! tid) as [p|] eqn:E; [|auto].
  destruct p; unfold statement, on_cap; cbn;
    try (exfalso; eapply Hn; reflexivity);
    repeat (match goal with |- context [match ?x with _ => _ end] =>
              destruct x end; cbn); auto.
Qed.

Lemma last_statement_drops_capture tid w i p q :
  threads w !! tid = Some p → finished p = false → p ≠ L51 →
  threads (loop_step i tid w) !! tid = Some q → finished q = true →
  cap (cam (loop_step i tid w)) = None ∧
  frame (cam (loop_step i tid w)) = frame (cam w) ∧
  last_frame_time (cam (loop_step i tid w)) = last_frame_time (cam w).
Proof.
  intros Hp Hf Hne.
  assert (Hlt : (tid < length (threads w))%nat) by (eapply lookup_lt_Some; eauto).
  rewrite (loop_step_at p i tid w Hp).
  destruct p; try discriminate Hf; try congruence;
    unfold statement, on_cap;
    repeat (match goal with |- context [match ?x with _ => _ end] =>
              destruct x eqn:? end);
    cbn; rewrite list_lookup_insert_eq by exact Hlt;
    intros [= <-] Hq; try discriminate Hq; auto.
Qed.

(** C8. Every way of leaving the loop drops the capture held and leaves
    the frame buffer alone. [stop] (called by [remove_subscriber] when the
    count reaches 0) clears the flag, releases the capture in [self.cap]
    and sets the field to [None]; a thread that finds the flag cleared at
    line 53 goes through lines 65-67 and does the same; a thread whose
    initial open failed goes through lines 49-51 and does the same. None
    of them writes [frame] or [last_frame_time], which only lines 61-63
    write, so [get_frame] still returns the last frame stored. Whatever
    else the other threads did in between, the statement by which a thread
    ends (line 65 or 67, or a method call on [self.cap = None]) leaves
    [self.cap] at [None] and the buffer untouched. *)
Theorem exits_release_capture w :
  (released_and_stale w (stop w) ∧ running (cam (stop w)) = false) ∧
  (subscribers (cam w) ≤ 1 →
     released_and_stale w (remove_subscriber w) ∧
     running (cam (remove_subscriber w)) = false) ∧
  (∀ tid i, threads w !! tid = Some L53 → running (cam w) = false →
     let w' := Nat.iter 4 (loop_step i tid) w in
     threads w' !! tid = Some Done ∧ released_and_stale w w') ∧
  (∀ tid i h, threads w !! tid = Some L48 → cap (cam w) = Some h →
     is_opened w h = false →
     let w' := Nat.iter 4 (loop_step i tid) w in
     threads w' !! tid = Some Done ∧ released_and_stale w w' ∧
     running (cam w') = false) ∧
  (∀ tid i, (∀ f, threads w !! tid ≠ Some (L61 f)) →
     frame (cam (loop_step i tid w)) = frame (cam w) ∧
     last_frame_time (cam (loop_step i tid w)) = last_frame_time (cam w)) ∧
  (∀ tid i p q, threads w !! tid = Some p → finished p = false → p ≠ L51 →
     threads (loop_step i tid w) !! tid = Some q → finished q = true →
     cap (cam (loop_step i tid w)) = None ∧
     frame (cam (loop_step i tid w)) = frame (cam w) ∧
     last_frame_time (cam (loop_step i tid w)) = last_frame_time (cam w)).
Proof.
  split; [apply stop_released|]. split; [|split; [|split; [|split]]].
  - intros Hs. unfold remove_subscriber. cbn.
    replace (Z.max 0 (subscribers (cam w) - 1)) with 0 by lia. cbn.
    destruct (stop_released
                (with_cam (λ s, set_subscribers (Z.max 0 (subscribers s - 1)) s)
                          (emit EvRemoveSubscriber w)))
      as [(H1 & H2 & H3 & H4 & H5) H6].
    unfold released_and_stale. auto 10.
  - intros tid i Hp Hr.
    assert (Hlt : (tid < length (threads w))%nat) by (eapply lookup_lt_Some; eauto).
    cbn zeta. rewrite Nat.iter_succ_r. next_statement (@L53 Frame) Hlt. rewrite Hr.
    destruct (loop_end_released tid (goto tid L65 w) i) as (H1 & H2 & _).
    { at_pc Hlt. }
    split; [exact H1|exact H2].
  - intros tid i h. apply open_failure_released.
  - intros tid i. apply frame_only_stored.
  - intros tid i p q. apply last_statement_drops_capture.
Qed.

(** *** The request handlers *)





Section Handlers.
Variable imencode : Z → Frame → option string.
Variable JPEG_QUALITY : Z.







Lemma loop_step_logged i tid w :
  subscribed (log (loop_step i tid w)) = subscribed (log w) ∧
  unsubscribed (log (loop_step i tid w)) = unsubscribed (log w).
Proof.
  unfold loop_step, statement, on_cap.
  destruct (threads w !! tid) as [[]|]; cbn; auto;
    repeat (match goal with |- context [match ?x with _ => _ end] =>
              destruct x end; cbn); auto.
Qed.

Lemma add_subscriber_logged w :
  subscribed (log (add_subscriber w)) = S (subscribed (log w)) ∧
  unsubscribed (log (add_subscriber w)) = unsubscribed (log w).
Proof.
  unfold add_subscriber, start; cbn.
  destruct (_ =? 1)%Z; [destruct (running (cam w))|]; cbn; auto.
Qed.

Lemma remove_subscriber_logged w :
  subscribed (log (remove_subscriber w)) = subscribed (log w) ∧
  unsubscribed (log (remove_subscriber w)) = S (unsubscribed (log w)).
Proof.
  unfold remove_subscriber, stop; cbn.
  destruct (_ =? 0)%Z; [destruct (cap (cam w))|]; cbn; auto.
Qed.

Lemma gen_step_balance w0 g o :
  stream_balance w0 g →
  stream_balance w0 (gen_step imencode JPEG_QUALITY g o).
Proof.
  destruct g as [w p ps]. unfold stream_balance, gen_step, gen_finally; cbn.
  destruct (add_subscriber_logged w) as [Ha1 Ha2].
  destruct (remove_subscriber_logged w) as [Hr1 Hr2].
  destruct o as [| | | | |tid i]; destruct p; cbn; auto;
    try (destruct (loop_step_logged i tid w) as [-> ->]; auto; fail);
    try (rewrite ?Ha1, ?Ha2, ?Hr1, ?Hr2; intros [-> ->]; auto; fail).
  destruct (get_jpeg imencode JPEG_QUALITY w); cbn; auto.
Qed.

Lemma gen_run_balance w0 ops g :
  stream_balance w0 g →
  stream_balance w0 (gen_run imencode JPEG_QUALITY ops g).
Proof.
  revert g. induction ops as [|o ops IH]; intros g H; [exact H|].
  change (gen_run imencode JPEG_QUALITY (o :: ops) g)
    with (gen_run imencode JPEG_QUALITY ops
            (gen_step imencode JPEG_QUALITY g o)).
  apply IH, gen_step_balance, H.
Qed.

(** C7. Whatever happens to a generator made by [gen_mjpeg_stream]:
    before it is started it has called neither method; while it is active
    it has called [add_subscriber] once and [remove_subscriber] never;
    once it is finished it has called [remove_subscriber] exactly as often
    as [add_subscriber], that is once if it was ever started. Each way
    out of the started generator, an exception in the body, [close()] or
    [throw()] at the [yield], runs the [finally] clause, which calls
    [remove_subscriber] once and finishes. A pass that finds no frame
    sleeps 0.1 s and stays in the loop. *)
Theorem stream_unsubscribes_once w ops :
  let g := gen_run imencode JPEG_QUALITY ops (gen_mjpeg_stream w) in
  stream_balance w g ∧
  (∀ o, (gpc g = GenRunning ∧ o = GRaise) ∨
        (gpc g = GenSuspended ∧ (o = GClose ∨ o = GThrow)) →
     let g' := gen_step imencode JPEG_QUALITY g o in
     gpc g' = GenFinished ∧ world g' = remove_subscriber (world g) ∧
     unsubscribed (log (world g')) = S (unsubscribed (log w)) ∧
     subscribed (log (world g')) = S (subscribed (log w))) ∧
  (gpc g = GenRunning → get_jpeg imencode JPEG_QUALITY (world g) = None →
     gen_step imencode JPEG_QUALITY g GTick =
       mkStream (sleep (1 # 10) (world g)) GenRunning (parts g)).
Proof.
  cbn zeta.
  assert (Hb : stream_balance w
                 (gen_run imencode JPEG_QUALITY ops (gen_mjpeg_stream w))).
  { apply gen_run_balance. unfold stream_balance; cbn. auto. }
  set (g := gen_run _ _ _ _) in *. clearbody g.
  split; [exact Hb|]. split.
  - intros o Ho. unfold stream_balance in Hb.
    destruct (remove_subscriber_logged (world g)) as [Hr1 Hr2].
    destruct g as [wg p ps]; cbn in *.
    destruct Ho as [[-> ->]|[-> [-> | ->]]]; cbn;
      destruct Hb as [Ha Hr]; rewrite Hr1, Hr2, Ha, Hr; auto.
  - intros Hp Hj. destruct g as [wg p ps]; cbn in *. subst p.
    unfold gen_step; cbn. rewrite Hj. reflexivity.
Qed.

End Handlers.

(** *** The bookkeeping methods under interleaving *)

Lemma add_subscriber_statements w :
  interleave [0; 0; 0; 0]%nat (w, [A83_load]) = (add_subscriber w, [Returned]).
Proof.
  break_world w. unfold interleave, request_step, add_subscriber; cbn.
  destruct (s + 1 =? 1)%Z; reflexivity.
Qed.

Lemma remove_subscriber_statements w :
  interleave [0; 0; 0; 0]%nat (w, [R88_load])
  = (remove_subscriber w, [Returned]).
Proof.
  break_world w. unfold interleave, request_step, remove_subscriber; cbn.
  destruct (Z.max 0 (s - 1) =? 0)%Z; reflexivity.
Qed.

Lemma two_subscribers_never_two_loops url :
  forallb (λ sch, (started (fst (interleave sch
                     (init (Frame:=Frame) url, [A83_load; A83_load]))) <=? 1)%nat)
          (orders 8) = true.
Proof. vm_compute. reflexivity. Qed.

(** C2 (the code at the failing schedule). Two [add_subscriber] calls
    made one after the other from the initial object leave count 2, the
    flag set and one capture thread. Run by two threads, with the second
    thread's increment scheduled between the first thread's increment and
    its test, both tests read 2: both calls return with count 2, the flag
    cleared and no capture thread at all. With both reads of the count
    scheduled before both writes, one increment is lost: count 1 after two
    calls. *)
Theorem concurrent_subscribe_race url :
  let w0 := init (Frame:=Frame) url in
  let one_by_one := add_subscriber (add_subscriber w0) in
  let missed := interleave [0; 0; 1; 1; 0; 1]%nat (w0, [A83_load; A83_load]) in
  let lost := interleave [0; 1; 0; 1; 0; 1; 0; 1]%nat
                         (w0, [A83_load; A83_load]) in
  (subscribers (cam one_by_one) = 2 ∧ running (cam one_by_one) = true ∧
   started one_by_one = 1%nat) ∧
  (snd missed = [Returned; Returned] ∧ subscribers (cam (fst missed)) = 2 ∧
   running (cam (fst missed)) = false ∧ started (fst missed) = 0%nat) ∧
  (snd lost = [Returned; Returned] ∧ subscribers (cam (fst lost)) = 1 ∧
   running (cam (fst lost)) = true ∧ started (fst lost) = 1%nat).
Proof. cbn. repeat split; reflexivity. Qed.

End Properties.

(** *** Start-up *)

(** C9. Without RTSP_URL in the environment the module body raises, so
    nothing is served; the exception is the RuntimeError of line 16
    whenever the two integer settings parse. With RTSP_URL set, each of
    SERVER_HOST, SERVER_PORT and JPEG_QUALITY that is absent takes its
    default, "0.0.0.0", 8080 and 80, and the process goes on to serve as
    soon as the integer settings present parse; with all three absent it
    serves with exactly the defaults. *)
Theorem startup_defaults (int : string → option Z)
    (environ : gmap string string) :
  int "8080" = Some 8080 → int "80" = Some 80 →
  let port := Startup.environ_get_default environ "SERVER_PORT" "8080" in
  let quality := Startup.environ_get_default environ "JPEG_QUALITY" "80" in
  (environ !! "RTSP_URL" = None →
     (∃ e, Startup.startup int environ = Startup.Raise e) ∧
     (is_Some (int port) → is_Some (int quality) →
        Startup.startup int environ
        = Startup.Raise (Startup.RuntimeError
                           "RTSP_URL environment variable must be set"))) ∧
  (∀ u, environ !! "RTSP_URL" = Some u →
     (environ !! "SERVER_HOST" = None → environ !! "SERVER_PORT" = None →
      environ !! "JPEG_QUALITY" = None →
        Startup.startup int environ
        = Startup.Serve (Startup.mkSettings u "0.0.0.0" 8080 80)) ∧
     (is_Some (int port) → is_Some (int quality) →
        ∃ s, Startup.startup int environ = Startup.Serve s) ∧
     (∀ s, Startup.startup int environ = Startup.Serve s →
        Startup.RTSP_URL s = u ∧
        (environ !! "SERVER_HOST" = None → Startup.SERVER_HOST s = "0.0.0.0") ∧
        (environ !! "SERVER_PORT" = None → Startup.SERVER_PORT s = 8080) ∧
        (environ !! "JPEG_QUALITY" = None → Startup.JPEG_QUALITY s = 80))).
Proof.
  intros H8080 H80. cbn zeta.
  unfold Startup.startup, Startup.environ_get, Startup.environ_get_default.
  split.
  - intros ->. split.
    + destruct (int (default "8080" (environ !! "SERVER_PORT")));
        [destruct (int (default "80" (environ !! "JPEG_QUALITY")))|]; eauto.
    + intros [p ->] [q ->]. reflexivity.
  - intros u ->. split; [|split].
    + intros -> -> ->. cbn. rewrite H8080, H80. reflexivity.
    + intros [p ->] [q ->]. eauto.
    + intros s.
      destruct (environ !! "SERVER_HOST") as [h|] eqn:Eh;
      destruct (environ !! "SERVER_PORT") as [p|] eqn:Ep;
      destruct (environ !! "JPEG_QUALITY") as [q|] eqn:Eq; cbn;
      rewrite ?H8080, ?H80;
      repeat (match goal with |- context [match int ?x with _ => _ end] =>
                destruct (int x) end);
      intros [= <-]; cbn; repeat split; auto; intros [=].
Qed.

(** * Further properties of the code *)

Section Further.
Context {Frame : Type}.
Implicit Types (w : World Frame) (i : input Frame) (tr : list (op Frame)).

Ltac open_world w :=
  let u := fresh "u" in let c := fresh "c" in let r := fresh "r" in
  let f := fresh "f" in let t := fresh "t" in let fp := fresh "fp" in
  let s := fresh "s" in let hp := fresh "hp" in let th := fresh "th" in
  let lg := fresh "lg" in
  destruct w as [[u c r f t fp s] hp th lg].

Ltac split_matches :=
  repeat (match goal with |- context [match ?x with _ => _ end] =>
            destruct x eqn:? end; cbn).

(** *** [start] and [stop] *)

(** X1. However often [start] is called in a row, the effect is that of
    one call: the flag is set, and exactly one capture thread is created if
    the flag was cleared, none if it was set. *)
Theorem start_single_flight n w :
  let w' := Nat.iter (S n) start w in
  w' = start w ∧ running (cam w') = true ∧
  (running (cam w) = true → w' = w) ∧
  (running (cam w) = false →
     threads w' = (threads w ++ [L47])%list ∧
     log w' = EvSpawn (length (threads w)) :: log w ∧
     cam w' = set_running true (cam w) ∧ heap w' = heap w).
Proof.
  cbn zeta.
  assert (E : Nat.iter (S n) start w = start w).
  { induction n as [|n IH]; [reflexivity|].
    change (Nat.iter (S (S n)) start w) with (start (Nat.iter (S n) start w)).
    rewrite IH. unfold start at 1.
    replace (running (cam (start w))) with true; [reflexivity|].
    unfold start. destruct (running (cam w)) eqn:Hr; auto. }
  rewrite E. unfold start.
  destruct (running (cam w)) eqn:Hr; cbn; repeat split; auto; discriminate.
Qed.

(** X2. [stop] does not wait for the capture thread: it leaves the
    thread table, the subscription count and the frame buffer as they are,
    and after it the flag is cleared and no capture is held. A second
    [stop] in a row changes nothing at all. *)
Theorem stop_twice w :
  stop (stop w) = stop w ∧
  threads (stop w) = threads w ∧
  subscribers (cam (stop w)) = subscribers (cam w) ∧
  get_frame (stop w) = get_frame w ∧
  (∀ h, cap (cam w) ≠ Some h → is_opened (stop w) h = is_opened w h).
Proof.
  open_world w. unfold stop, get_frame, is_opened; cbn.
  destruct c as [h0|]; cbn; repeat split; auto.
  intros h Hne. rewrite list_lookup_insert_ne; [reflexivity|congruence].
Qed.

(** X3. When the last subscriber leaves and a new one arrives before the
    capture thread has reached its loop test, the old thread is still in
    its loop and a second thread is started next to it: [stop] clears the
    flag, [start] sets it again, and the old thread finds it set. *)
Theorem restart_keeps_old_thread w tid p :
  threads w !! tid = Some p → in_loop p = true →
  subscribers (cam w) = 1 → running (cam w) = true →
  let w' := add_subscriber (remove_subscriber w) in
  running (cam w') = true ∧ subscribers (cam w') = 1 ∧
  threads w' = (threads w ++ [L47])%list ∧
  threads w' !! tid = Some p ∧
  threads w' !! length (threads w) = Some L47 ∧
  tid ≠ length (threads w) ∧
  (p = L53 → ∀ i, threads (loop_step i tid w') !! tid = Some L54).
Proof.
  intros Hp Hin Hs Hr.
  assert (Hlt : (tid < length (threads w))%nat)
    by (eapply lookup_lt_Some; eauto).
  open_world w; cbn in *. subst r.
  unfold add_subscriber, remove_subscriber, stop, start; cbn.
  destruct (Z.eqb_spec (Z.max 0 (s - 1)) 0) as [E|E]; [|lia].
  destruct c; cbn; rewrite E; change (0 + 1 =? 1)%Z with true; cbn.
  all:
    (split; [reflexivity|]; split; [reflexivity|]; split; [reflexivity|];
     split; [rewrite lookup_app_l by exact Hlt; exact Hp|];
     split; [rewrite lookup_app_r by lia; rewrite Nat.sub_diag; reflexivity|];
     split; [lia|];
     intros -> i; unfold loop_step; cbn;
     rewrite lookup_app_l by exact Hlt; rewrite Hp; cbn;
     apply list_lookup_insert_eq; rewrite length_app; cbn; lia).
Qed.

(** *** The subscription count *)

Lemma iter_add_count n w :
  subscribers (cam (Nat.iter n add_subscriber w))
  = subscribers (cam w) + Z.of_nat n.
Proof.
  induction n as [|n IH]; [cbn; lia|].
  change (Nat.iter (S n) add_subscriber w)
    with (add_subscriber (Nat.iter n add_subscriber w)).
  unfold add_subscriber at 1, start; cbn -[Nat.iter].
  destruct (_ =? 1)%Z; [destruct (running _)|]; cbn -[Nat.iter]; lia.
Qed.

Lemma iter_remove_count n w :
  0 ≤ subscribers (cam w) →
  subscribers (cam (Nat.iter n remove_subscriber w))
  = Z.max 0 (subscribers (cam w) - Z.of_nat n).
Proof.
  intros H. induction n as [|n IH]; [cbn; lia|].
  change (Nat.iter (S n) remove_subscriber w)
    with (remove_subscriber (Nat.iter n remove_subscriber w)).
  unfold remove_subscriber at 1, stop; cbn -[Nat.iter].
  destruct (_ =? 0)%Z; [destruct (cap _)|]; cbn -[Nat.iter]; lia.
Qed.

Lemma add_subscriber_positive w :
  0 < subscribers (cam w) → same_but_count (add_subscriber w) w.
Proof.
  intros H. open_world w; cbn in H.
  unfold add_subscriber, same_but_count; cbn.
  destruct (Z.eqb_spec (s + 1) 1); [lia|]. cbn. auto.
Qed.

Lemma remove_subscriber_positive w :
  1 < subscribers (cam w) → same_but_count (remove_subscriber w) w.
Proof.
  intros H. open_world w; cbn in H.
  unfold remove_subscriber, same_but_count; cbn.
  destruct (Z.eqb_spec (Z.max 0 (s - 1)) 0); [lia|]. cbn. auto.
Qed.

Lemma same_but_count_trans w1 w2 w3 :
  same_but_count w1 w2 → same_but_count w2 w3 → same_but_count w1 w3.
Proof.
  unfold same_but_count. intros (A & B & C) (D & E & F).
  repeat split; congruence.
Qed.

Lemma same_but_count_eq w1 w2 :
  same_but_count w1 w2 → subscribers (cam w1) = subscribers (cam w2) →
  same_state w1 w2.
Proof.
  destruct w1 as [[u1 c1 r1 f1 t1 fp1 s1] hp1 th1 lg1].
  destruct w2 as [[u2 c2 r2 f2 t2 fp2 s2] hp2 th2 lg2].
  unfold same_but_count, same_state; cbn.
  intros (E & -> & ->) ->. injection E as -> -> -> -> -> ->. auto.
Qed.

Lemma iter_add_positive n w :
  0 < subscribers (cam w) →
  same_but_count (Nat.iter n add_subscriber w) w.
Proof.
  intros H. induction n as [|n IH]; [repeat split|].
  change (Nat.iter (S n) add_subscriber w)
    with (add_subscriber (Nat.iter n add_subscriber w)).
  eapply same_but_count_trans; [|exact IH].
  apply add_subscriber_positive. rewrite iter_add_count. lia.
Qed.

Lemma iter_remove_positive n w :
  Z.of_nat n < subscribers (cam w) →
  same_but_count (Nat.iter n remove_subscriber w) w.
Proof.
  intros H. induction n as [|n IH]; [repeat split|].
  change (Nat.iter (S n) remove_subscriber w)
    with (remove_subscriber (Nat.iter n remove_subscriber w)).
  eapply same_but_count_trans; [|apply IH; lia].
  apply remove_subscriber_positive. rewrite iter_remove_count by lia. lia.
Qed.

(** X4. [n] calls of [add_subscriber] followed by [n] calls of
    [remove_subscriber] give back the count they started from. Above a
    positive count they call neither [start] nor [stop] and give back the
    object, the captures and the threads unchanged; from count 0 the first
    call starts a capture thread and the last one stops the camera. *)
Theorem subscribe_unsubscribe_round_trip n w :
  0 ≤ subscribers (cam w) →
  let up := Nat.iter n add_subscriber w in
  let w' := Nat.iter n remove_subscriber up in
  subscribers (cam up) = subscribers (cam w) + Z.of_nat n ∧
  subscribers (cam w') = subscribers (cam w) ∧
  (0 < subscribers (cam w) → same_state w' w) ∧
  (subscribers (cam w) = 0 → n ≠ 0%nat →
     running (cam w') = false ∧ cap (cam w') = None ∧
     (running (cam w) = false →
        threads w' = (threads w ++ [L47])%list)).
Proof.
  intros H0. cbn zeta.
  split; [apply iter_add_count|].
  split; [rewrite iter_remove_count, iter_add_count; rewrite ?iter_add_count; lia|].
  split.
  - intros Hp. apply same_but_count_eq.
    + eapply same_but_count_trans; [|apply iter_add_positive, Hp].
      apply iter_remove_positive. rewrite iter_add_count. lia.
    + rewrite iter_remove_count, iter_add_count; rewrite ?iter_add_count; lia.
  - intros Hz Hn. destruct n as [|n]; [congruence|].
    change (Nat.iter (S n) remove_subscriber (Nat.iter (S n) add_subscriber w))
      with (remove_subscriber
              (Nat.iter n remove_subscriber (Nat.iter (S n) add_subscriber w))).
    set (mid := Nat.iter n remove_subscriber (Nat.iter (S n) add_subscriber w)).
    assert (Hmid : same_but_count mid (Nat.iter (S n) add_subscriber w)).
    { apply iter_remove_positive. rewrite iter_add_count. lia. }
    assert (Hc : subscribers (cam mid) = 1).
    { unfold mid. rewrite iter_remove_count, iter_add_count;
        rewrite ?iter_add_count; lia. }
    assert (Hup : same_but_count (Nat.iter (S n) add_subscriber w)
                                 (add_subscriber w)).
    { rewrite Nat.iter_succ_r. apply iter_add_positive.
      rewrite add_subscriber_count. lia. }
    pose proof (same_but_count_trans _ _ _ Hmid Hup) as Hsim.
    clearbody mid. clear Hmid Hup.
    destruct mid as [[u1 c1 r1 f1 t1 fp1 s1] hp1 th1 lg1].
    open_world w. cbn in *. subst.
    unfold same_but_count, add_subscriber, start in Hsim; cbn in Hsim.
    unfold remove_subscriber, stop; cbn.
    destruct c1; cbn; repeat split; auto; intros ->;
      destruct Hsim as (_ & _ & ->); reflexivity.
Qed.

(** *** Capture objects *)




(** *** The frame buffer, again *)

Lemma exec_frame w (o : op Frame) :
  (is_Some (get_frame w) → is_Some (get_frame (exec w o))) ∧
  ((get_frame w = None → last_frame_time (cam w) = 0%Q) →
   get_frame (exec w o) = None → last_frame_time (cam (exec w o)) = 0%Q).
Proof.
  open_world w. unfold get_frame. destruct o as [| |tid i]; cbn.
  - unfold add_subscriber, start; cbn. split_matches; auto.
  - unfold remove_subscriber, stop; cbn. split_matches; auto.
  - unfold loop_step, statement, on_cap; cbn.
    destruct (th !! tid) as [[]|]; cbn; split_matches; auto;
      split; eauto; discriminate.
Qed.

(** X6. The frame buffer is only ever filled: once [get_frame] returns a
    frame, it returns a frame after any further execution. From a new
    object, [last_frame_time] keeps its initial value 0 as long as there
    is no frame. *)
Theorem frame_buffer_only_fills url tr w :
  (is_Some (get_frame w) → is_Some (get_frame (run tr w))) ∧
  (get_frame (run tr (init (Frame:=Frame) url)) = None →
   last_frame_time (cam (run tr (init (Frame:=Frame) url))) = 0%Q).
Proof.
  split.
  - revert w. induction tr as [|o tr IH]; intros w H; [exact H|].
    change (run (o :: tr) w) with (run tr (exec w o)).
    apply IH, exec_frame, H.
  - assert (H : ∀ w0 : World Frame,
               (get_frame w0 = None → last_frame_time (cam w0) = 0%Q) →
               get_frame (run tr w0) = None →
               last_frame_time (cam (run tr w0)) = 0%Q).
    { induction tr as [|o tr IH]; intros w0 H0; [exact H0|].
      change (run (o :: tr) w0) with (run tr (exec w0 o)).
      apply IH, exec_frame, H0. }
    apply H. reflexivity.
Qed.

(** *** Ending a capture thread *)

Lemma cleared_step i tid w p :
  running (cam w) = false → threads w !! tid = Some p →
  running (cam (loop_step i tid w)) = false ∧
  ∃ q, threads (loop_step i tid w) !! tid = Some q ∧
       (steps_left q ≤ Nat.pred (steps_left p))%nat.
Proof.
  intros Hr Hp.
  assert (Hlt : (tid < length (threads w))%nat)
    by (eapply lookup_lt_Some; eauto).
  rewrite (loop_step_at p i tid w Hp).
  destruct p; unfold statement, on_cap; try rewrite Hr; split_matches;
    (split; [cbn; first [exact Hr | reflexivity]|]);
    first [ eexists; split; [apply list_lookup_insert_eq; exact Hlt|cbn; lia]
          | eexists; split; [exact Hp|cbn; lia] ].
Qed.

Lemma cleared_steps tid n : ∀ d ins w p,
  running (cam w) = false → threads w !! tid = Some p →
  (steps_left p ≤ n)%nat →
  running (cam (thread_steps tid d ins n w)) = false ∧
  ∃ q, threads (thread_steps tid d ins n w) !! tid = Some q ∧
       finished q = true.
Proof.
  induction n as [|n IH]; intros d ins w p Hr Hp Hn.
  - cbn. split; [exact Hr|]. exists p. split; [exact Hp|].
    destruct p; cbn in Hn; try lia; reflexivity.
  - destruct ins as [|i ins]; cbn [thread_steps].
    + destruct (cleared_step d tid w p Hr Hp) as (Hr' & q & Hq & Hle).
      apply (IH d [] _ q Hr' Hq). lia.
    + destruct (cleared_step i tid w p Hr Hp) as (Hr' & q & Hq & Hle).
      apply (IH i ins _ q Hr' Hq). lia.
Qed.

(** X7. Once the running flag is cleared, a capture thread ends within 8
    of its own statements, wherever it stands and whatever the source
    answers in between; [steps_left] bounds the number for each point. In
    particular the eight are enough when [stop] was just called. *)
Theorem thread_ends_after_stop tid w p d ins :
  threads w !! tid = Some p →
  (running (cam w) = false → ∀ n, (steps_left p ≤ n)%nat →
     ∃ q, threads (thread_steps tid d ins n w) !! tid = Some q ∧
          finished q = true) ∧
  (∃ q, threads (thread_steps tid d ins 8 (stop w)) !! tid = Some q ∧
        finished q = true).
Proof.
  intros Hp. split.
  - intros Hr n Hn. eapply cleared_steps; eauto.
  - assert (Hr : running (cam (stop w)) = false).
    { unfold stop. cbn. destruct (cap (cam w)); reflexivity. }
    assert (Hp' : threads (stop w) !! tid = Some p).
    { unfold stop. cbn. destruct (cap (cam w)); exact Hp. }
    eapply cleared_steps; eauto. destruct p; cbn; lia.
Qed.


(** *** One connection at a time *)

Lemma not_true_and_false (b : bool) : b = true → b = false → False.
Proof. intros -> H. discriminate H. Qed.

Lemma closed_after_release (hp : list bool) (c : option nat) (h0 : nat) :
  (∀ h : nat, default false (hp !! h) = true → c = Some h) → c = Some h0 →
  ∀ h : nat, default false (<[h0:=false]> hp !! h) = false.
Proof.
  intros H -> h. destruct (decide (h0 = h)) as [->|Hne].
  - destruct (decide (h < length hp)%nat).
    + rewrite list_lookup_insert_eq by assumption. reflexivity.
    + rewrite lookup_ge_None_2; [reflexivity|rewrite length_insert; lia].
  - rewrite list_lookup_insert_ne by exact Hne.
    destruct (default false (hp !! h)) eqn:E; [|reflexivity].
    apply H in E. congruence.
Qed.

Lemma one_open_after_new (hp : list bool) ok :
  (∀ h : nat, default false (hp !! h) = false) →
  ∀ h : nat, default false ((hp ++ [ok])%list !! h) = true →
       Some (length hp) = Some h.
Proof.
  intros H h Ho. destruct (decide (h < length hp)%nat) as [Hlt|Hge].
  - rewrite lookup_app_l in Ho by exact Hlt. rewrite H in Ho. discriminate.
  - destruct (decide (h = length hp)) as [->|Hne]; [reflexivity|].
    rewrite lookup_ge_None_2 in Ho; [discriminate|].
    rewrite length_app. cbn. lia.
Qed.

Lemma closed_if_cap_closed (hp : list bool) (c : option nat) :
  (∀ h : nat, default false (hp !! h) = true → c = Some h) →
  (∀ h : nat, c = Some h → default false (hp !! h) = false) →
  ∀ h : nat, default false (hp !! h) = false.
Proof.
  intros H1 H2 h. destruct (default false (hp !! h)) eqn:E; [|reflexivity].
  pose proof (H1 h E) as Hc. pose proof (H2 h Hc) as E2. congruence.
Qed.

Lemma exec_threads_length w (o : op Frame) :
  (length (threads w) ≤ length (threads (exec w o)))%nat.
Proof.
  open_world w. destruct o as [| |tid i]; cbn.
  - unfold add_subscriber, start; cbn. split_matches; rewrite ?length_app; lia.
  - unfold remove_subscriber, stop; cbn. split_matches; lia.
  - unfold loop_step, statement, on_cap; cbn.
    destruct (th !! tid) as [[]|]; cbn; split_matches;
      rewrite ?length_insert; lia.
Qed.

Lemma single_thread_inv_stop w :
  single_thread_inv w → single_thread_inv (stop w).
Proof.
  open_world w. unfold single_thread_inv, stop, one_open_capture, all_closed,
    is_opened; cbn.
  destruct th as [|p [|p2 th]]; [| |destruct c; cbn; auto].
  - intros [H ->]. cbn. auto.
  - intros (H1 & H2 & H3). destruct c as [h0|]; cbn.
    + pose proof (closed_after_release hp (Some h0) h0 H1 eq_refl) as Hc.
      split; [intros h Hh; rewrite Hc in Hh; discriminate|].
      split; [discriminate|]. intros _. exact Hc.
    + split; [exact H1|]. split; [discriminate|exact H3].
Qed.

Lemma single_thread_inv_exec w (o : op Frame) :
  single_thread_inv w → single_thread_inv (exec w o).
Proof.
  intros Hinv. pose proof (exec_threads_length w o) as Hlen.
  destruct o as [| |tid i]; cbn in *.
  - (* add_subscriber *)
    unfold add_subscriber, start in *; cbn in *.
    destruct (_ =? 1)%Z; [destruct (running (cam w)) eqn:Hr|]; cbn;
      try exact Hinv.
    open_world w. unfold single_thread_inv, one_open_capture, all_closed,
      is_opened in *; cbn in *.
    destruct th as [|p [|p2 th]]; cbn; auto.
    destruct Hinv as [H ->]. split; [|split; [discriminate|auto]].
    intros h Hh. rewrite H in Hh. discriminate.
  - (* remove_subscriber *)
    unfold remove_subscriber in *; cbn in *.
    destruct (_ =? 0)%Z; [|exact Hinv].
    apply (single_thread_inv_stop
             (with_cam (λ s, set_subscribers (Z.max 0 (subscribers s - 1)) s)
                       (emit EvRemoveSubscriber w))).
    exact Hinv.
  - (* a statement of a capture thread *)
    open_world w. unfold single_thread_inv in *; cbn in *.
    destruct th as [|p [|p2 th]].
    + unfold loop_step; cbn. exact Hinv.
    + destruct tid as [|tid]; [|unfold loop_step; cbn; exact Hinv].
      unfold loop_step, one_open_capture, all_closed, is_opened in *;
        cbn in *.
      destruct Hinv as (H1 & H2 & H3).
      pose proof (closed_if_cap_closed hp c H1) as Hall.
      destruct p; cbn in H2, H3;
        first [ pose proof (H3 eq_refl) as Hc0
              | pose proof (Hall (H2 eq_refl)) as Hc0
              | pose proof I as Hc0 ];
        clear H2 H3 Hall;
        unfold statement, on_cap, one_open_capture, all_closed, is_opened;
        cbn;
        try (destruct c as [hc|]; cbn);
        try (destruct (default false (hp !! hc)) eqn:Eo; cbn);
        try (destruct (read_result i); cbn);
        try (destruct r; cbn);
        (split; [|split]);
        first
          [ exact H1
          | intros Hq; discriminate Hq
          | intros h' Hh'; first
              [ apply (one_open_after_new _ _ Hc0 h' Hh')
              | exfalso;
                exact (not_true_and_false _ Hh'
                         (closed_after_release _ _ _ H1 eq_refl h'))
              | exfalso; exact (not_true_and_false _ Hh' (Hc0 h')) ]
          | intros _ h' _; first
              [ apply (closed_after_release _ _ _ H1 eq_refl)
              | apply Hc0 ]
          | intros _ h'; first
              [ apply (closed_after_release _ _ _ H1 eq_refl)
              | apply Hc0 ] ].
    + cbn in Hlen.
      destruct (threads (loop_step i tid _)) as [|q [|q2 rest]] eqn:E;
        cbn in Hlen; try lia; exact I.
Qed.

Lemma single_thread_inv_run tr w :
  single_thread_inv w → single_thread_inv (run tr w).
Proof.
  revert w. induction tr as [|o tr IH]; intros w H; [exact H|].
  change (run (o :: tr) w) with (run tr (exec w o)).
  apply IH, single_thread_inv_exec, H.
Qed.

(** X8. As long as a single capture thread has been started, at most one
    capture object is open, and it is the one in [self.cap]: each capture
    is released before the field is overwritten or cleared, whichever way
    the calls of [add_subscriber] and [remove_subscriber] fall between the
    statements of the thread. If in addition [self.cap] is [None], no
    capture is open at all. *)
Theorem one_connection_at_a_time url tr :
  let w := run tr (init (Frame:=Frame) url) in
  (started w ≤ 1)%nat →
  one_open_capture w ∧ (cap (cam w) = None → all_closed w).
Proof.
  cbn zeta. intros Hs.
  assert (Hinv : single_thread_inv (run tr (init (Frame:=Frame) url))).
  { apply single_thread_inv_run. unfold single_thread_inv, all_closed; cbn.
    auto. }
  unfold single_thread_inv, started in *.
  destruct (threads (run tr (init url))) as [|p [|p2 th]]; cbn in Hs; [| |lia].
  - destruct Hinv as [Ha Hc]. split; [|auto].
    intros h Hh. rewrite Ha in Hh. discriminate.
  - destruct Hinv as (H1 & _). split; [exact H1|].
    intros Hc h. destruct (is_opened _ h) eqn:E; [|reflexivity].
    apply H1 in E. congruence.
Qed.


(** *** Request threads in any order *)



Lemma request_step_count (c : Server (Frame:=Frame)) rid :
  0 ≤ subscribers (cam (fst c)) → Forall pending_ok (snd c) →
  0 ≤ subscribers (cam (fst (request_step c rid))) ∧
  Forall pending_ok (snd (request_step c rid)).
Proof.
  destruct c as [w ps]. cbn. intros H0 Hall. unfold request_step; cbn.
  destruct (ps !! rid) as [p|] eqn:Hp; cbn; [|auto].
  assert (Hpok : pending_ok p).
  { rewrite Forall_forall in Hall. apply Hall.
    apply list_elem_of_lookup. eauto. }
  assert (Hins : ∀ q, pending_ok q → Forall pending_ok (<[rid:=q]> ps)).
  { intros q Hq. apply Forall_insert; auto. }
  destruct p; cbn in *;
    (split; [|apply Hins; cbn; auto; split_matches; cbn; auto]);
    try exact H0; try lia.
  - unfold start. destruct (running (cam w)); exact H0.
  - unfold stop. cbn. destruct (cap (cam w)); exact H0.
Qed.

(** X10. However the statements of concurrent [add_subscriber] and
    [remove_subscriber] calls are interleaved, the count never becomes
    negative, although increments and decrements can be lost. *)
Theorem interleaved_count_not_negative (c : Server (Frame:=Frame)) sch :
  0 ≤ subscribers (cam (fst c)) → Forall pending_ok (snd c) →
  0 ≤ subscribers (cam (fst (interleave sch c))).
Proof.
  revert c. induction sch as [|rid sch IH]; intros c H0 Hall; [exact H0|].
  change (interleave (rid :: sch) c)
    with (interleave sch (request_step c rid)).
  destruct (request_step_count c rid H0 Hall) as [H0' Hall'].
  apply IH; assumption.
Qed.

(** *** Draining the subscribers *)

(** X11. Whatever state the capture loop is in, also after it gave up on
    a failed open, once every subscriber has left the next one starts a
    new capture thread: the count is 1, the flag is set, no capture is
    held yet and one thread stands at its first statement. *)
Theorem drained_camera_restarts w :
  0 < subscribers (cam w) →
  let n := Z.to_nat (subscribers (cam w)) in
  let w' := add_subscriber (Nat.iter n remove_subscriber w) in
  subscribers (cam w') = 1 ∧ running (cam w') = true ∧
  cap (cam w') = None ∧ threads w' = (threads w ++ [L47])%list ∧
  get_frame w' = get_frame w.
Proof.
  intros Hs. cbn zeta.
  destruct (Z.to_nat (subscribers (cam w))) as [|n] eqn:En; [lia|].
  change (Nat.iter (S n) remove_subscriber w)
    with (remove_subscriber (Nat.iter n remove_subscriber w)).
  set (mid := Nat.iter n remove_subscriber w).
  assert (Hsim : same_but_count mid w) by (apply iter_remove_positive; lia).
  assert (Hc : subscribers (cam mid) = 1).
  { unfold mid. rewrite iter_remove_count by lia. lia. }
  clearbody mid. destruct mid as [[u1 c1 r1 f1 t1 fp1 s1] hp1 th1 lg1].
  open_world w. unfold same_but_count in Hsim. cbn in *.
  destruct Hsim as (E & -> & ->). injection E as -> -> -> -> -> ->. subst s1.
  unfold add_subscriber, remove_subscriber, stop, start, get_frame; cbn.
  change (Z.max 0 (1 - 1)) with 0.
  destruct c; cbn; change (0 + 1 =? 1)%Z with true; cbn; auto.
Qed.


(** *** The first frame *)

Lemma steps_to_store_step i tid w p q k :
  threads w !! tid = Some p →
  threads (loop_step i tid w) !! tid = Some q →
  steps_to_store q = Some k →
  ∃ k0, steps_to_store p = Some k0 ∧ (k0 ≤ S k)%nat.
Proof.
  intros Hp.
  assert (Hlt : (tid < length (threads w))%nat)
    by (eapply lookup_lt_Some; eauto).
  rewrite (loop_step_at p i tid w Hp).
  destruct p; unfold statement, on_cap; split_matches; cbn;
    try rewrite list_lookup_insert_eq by exact Hlt;
    try rewrite Hp;
    intros [= <-]; cbn; intros [= <-]; eexists; split; try reflexivity; lia.
Qed.

Lemma loop_step_threads_other i tid w t :
  t ≠ tid → threads (loop_step i tid w) !! t = threads w !! t.
Proof.
  intros Hne. unfold loop_step.
  destruct (threads w !! tid) as [p|] eqn:Hp; [|reflexivity].
  destruct p; unfold statement, on_cap; split_matches; cbn;
    try rewrite list_lookup_insert_ne by auto; reflexivity.
Qed.

Lemma far_from_store_step n i tid w :
  far_from_store (S n) w →
  far_from_store n (loop_step i tid w) ∧
  get_frame (loop_step i tid w) = get_frame w.
Proof.
  intros Hfar. split.
  - intros t q k Hq Hk. destruct (decide (t = tid)) as [->|Hne].
    + destruct (threads w !! tid) as [p|] eqn:Hp.
      * destruct (steps_to_store_step i tid w p q k Hp Hq Hk)
          as (k0 & Hk0 & Hle).
        specialize (Hfar tid p k0 Hp Hk0). lia.
      * unfold loop_step in Hq. rewrite Hp in Hq. congruence.
    + rewrite loop_step_threads_other in Hq by exact Hne.
      specialize (Hfar t q k Hq Hk). lia.
  - unfold get_frame. apply frame_only_stored.
    intros f Hf. specialize (Hfar tid (L61 f) 0%nat Hf eq_refl). lia.
Qed.

Lemma far_from_store_run (sch : schedule Frame) : ∀ w,
  far_from_store (length sch) w →
  get_frame (run_threads sch w) = get_frame w.
Proof.
  induction sch as [|[tid i] sch IH]; intros w Hfar; [reflexivity|].
  change (run_threads ((tid, i) :: sch) w)
    with (run_threads sch (loop_step i tid w)).
  destruct (far_from_store_step (length sch) i tid w Hfar) as [Hfar' Hf].
  rewrite IH by exact Hfar'. exact Hf.
Qed.

Lemma first_frame i tid w f :
  threads w !! tid = Some L47 → running (cam w) = true →
  open_ok i = true → read_result i = Some f →
  Nat.iter 5 (loop_step i tid) w =
    mkWorld (set_frame f (now i) (set_cap (Some (length (heap w))) (cam w)))
            (heap w ++ [true])%list (<[tid:=L64]> (threads w))
            (EvStore f :: EvOpen (length (heap w)) true :: log w).
Proof.
  intros Hp Hr Ho Hrd.
  assert (Hlt : (tid < length (threads w))%nat)
    by (eapply lookup_lt_Some; eauto).
  assert (Hat : ∀ q w0, threads w0 = threads w →
                threads (goto tid q w0) !! tid = Some q).
  { intros q w0 E. cbn. rewrite E. apply list_lookup_insert_eq, Hlt. }
  rewrite Nat.iter_succ_r, (loop_step_at L47 i tid w Hp). cbn [statement].
  rewrite Nat.iter_succ_r, (loop_step_at L48 i tid) by (apply Hat; reflexivity).
  cbn [statement]. unfold on_cap at 1. cbn [cam goto new_capture set_cap cap].
  replace (is_opened (goto tid L48 (new_capture (open_ok i) w)) (length (heap w)))
    with true.
  2:{ unfold is_opened. cbn. rewrite lookup_app_r by lia.
      rewrite Nat.sub_diag, Ho. reflexivity. }
  rewrite Nat.iter_succ_r, (loop_step_at L53 i tid)
    by (cbn; rewrite list_insert_insert_eq; apply list_lookup_insert_eq, Hlt).
  cbn [statement].
  replace (running (cam (goto tid L53 (goto tid L48 (new_capture (open_ok i) w)))))
    with true by (cbn; congruence).
  rewrite Nat.iter_succ_r, (loop_step_at L54 i tid)
    by (cbn; rewrite !list_insert_insert_eq; apply list_lookup_insert_eq, Hlt).
  cbn [statement]. unfold on_cap at 1. cbn [cam goto new_capture set_cap cap].
  match goal with |- context [is_opened ?x ?y] =>
    replace (is_opened x y) with true end.
  2:{ unfold is_opened. cbn. rewrite lookup_app_r by lia.
      rewrite Nat.sub_diag, Ho. reflexivity. }
  rewrite Hrd.
  rewrite Nat.iter_succ_r, (loop_step_at (L61 f) i tid)
    by (cbn; rewrite !list_insert_insert_eq; apply list_lookup_insert_eq, Hlt).
  open_world w; cbn in *. subst.
  unfold goto, emit, with_cam, new_capture; cbn.
  rewrite !list_insert_insert_eq, Ho. reflexivity.
Qed.


(** *** The handlers, again *)

Lemma last_stored_in (l : list (event Frame)) f :
  last_stored l = Some f → EvStore f ∈ l.
Proof.
  induction l as [|e l IH]; [discriminate|].
  destruct e; cbn; intros H; rewrite elem_of_cons; auto.
  injection H as ->. auto.
Qed.

Lemma exec_log_grows w (o : op Frame) e : e ∈ log w → e ∈ log (exec w o).
Proof.
  intros He. open_world w. cbn in He. destruct o as [| |tid i]; cbn.
  - unfold add_subscriber, start; cbn. split_matches;
      rewrite ?elem_of_cons; auto.
  - unfold remove_subscriber, stop; cbn. split_matches;
      rewrite ?elem_of_cons; auto.
  - unfold loop_step, statement, on_cap; cbn.
    destruct (th !! tid) as [[]|]; cbn; split_matches;
      rewrite ?elem_of_cons; auto 6.
Qed.

Section FurtherHandlers.
Variable imencode : Z → Frame → option string.
Variable JPEG_QUALITY : Z.

(** X12. A request to [/capture] that finds the frame buffer empty
    answers 503 unless the capture threads get far enough during the
    0.1 s sleep: a thread needs at least [steps_to_store] statements to
    reach the buffer write. On a new camera the thread started by the
    request needs five (open, test, loop test, read, write), so with four
    or fewer the answer is 503 whatever the source delivers. *)
Theorem cold_capture_unavailable (sch : schedule Frame) w url :
  (get_frame w = None → far_from_store (length sch) (add_subscriber w) →
     snd (capture imencode JPEG_QUALITY sch w)
     = Abort 503 "Camera not ready") ∧
  ((length sch ≤ 4)%nat →
     snd (capture imencode JPEG_QUALITY sch (init url))
     = Abort 503 "Camera not ready").
Proof.
  assert (G : ∀ w0 : World Frame, get_frame w0 = None →
              far_from_store (length sch) (add_subscriber w0) →
              snd (capture imencode JPEG_QUALITY sch w0)
              = Abort 503 "Camera not ready").
  { intros w0 Hf Hfar. unfold capture, get_jpeg. cbn [snd].
    rewrite far_from_store_run by exact Hfar.
    replace (get_frame (sleep (1 # 10) (add_subscriber w0))) with (get_frame w0);
      [rewrite Hf; reflexivity|].
    unfold get_frame, add_subscriber, start; cbn. split_matches; reflexivity. }
  split; [apply G|].
  intros Hlen. apply G; [reflexivity|].
  intros tid p k Hp Hk. cbn in Hp.
  destruct tid as [|tid]; [|discriminate Hp].
  injection Hp as <-. injection Hk as <-. exact Hlen.
Qed.

(** X13. A request to [/capture] on a camera that nobody is subscribed
    to starts a capture thread; when that thread gets its first five
    statements in during the sleep, the source opens and the read
    succeeds, the answer is the encoding of the frame just read. The
    request ends with the count at 0 and the flag cleared, and the frame
    stays in the buffer. *)
Theorem cold_capture_succeeds w i f j :
  subscribers (cam w) = 0 → running (cam w) = false →
  open_ok i = true → read_result i = Some f →
  imencode JPEG_QUALITY f = Some j →
  let r := capture imencode JPEG_QUALITY
                   (replicate 5 (length (threads w), i)) w in
  snd r = SendFile j "image/jpeg" true "capture.jpg" ∧
  get_frame (fst r) = Some f ∧
  subscribers (cam (fst r)) = 0 ∧ running (cam (fst r)) = false ∧
  cap (cam (fst r)) = None ∧ is_opened (fst r) (length (heap w)) = false.
Proof.
  intros Hs Hr Ho Hrd Hj. cbn zeta.
  unfold capture, get_jpeg. cbn [fst snd].
  set (w1 := sleep (1 # 10) (add_subscriber w)).
  assert (E1 : w1 = mkWorld (set_running true (set_subscribers 1 (cam w)))
                       (heap w) (threads w ++ [L47])%list
                       (EvSleep (1 # 10) :: EvSpawn (length (threads w))
                          :: EvAddSubscriber :: log w)).
  { unfold w1. open_world w. cbn in *. subst.
    unfold add_subscriber, start, sleep, emit; cbn. reflexivity. }
  change (run_threads (replicate 5 (length (threads w), i)) w1)
    with (Nat.iter 5 (loop_step i (length (threads w))) w1).
  rewrite (first_frame i (length (threads w)) w1 f); auto.
  2:{ rewrite E1. cbn. rewrite lookup_app_r by lia.
      rewrite Nat.sub_diag. reflexivity. }
  2:{ rewrite E1. reflexivity. }
  rewrite E1. cbn [heap cam log threads]. unfold get_frame at 1. cbn.
  rewrite Hj. split; [reflexivity|].
  open_world w. cbn in *. subst.
  unfold remove_subscriber, stop, get_frame, is_opened; cbn.
  change (Z.max 0 (1 - 1) =? 0)%Z with true. cbn.
  repeat split.
  rewrite list_lookup_insert_eq; [reflexivity|].
  rewrite length_app. cbn. lia.
Qed.

Lemma gen_step_parts (g : Stream Frame) (o : gen_op Frame) :
  let P := λ g0 : Stream Frame,
    get_frame (world g0) = last_stored (log (world g0)) ∧
    ∀ part, part ∈ parts g0 →
      ∃ f j, EvStore f ∈ log (world g0) ∧
             imencode JPEG_QUALITY f = Some j ∧ part = mjpeg_part j in
  P g → P (gen_step imencode JPEG_QUALITY g o).
Proof.
  cbn zeta. intros [Hf Hparts].
  assert (Hexec : ∀ o' : op Frame,
            get_frame (exec (world g) o')
            = last_stored (log (exec (world g) o')) ∧
            ∀ part, part ∈ parts g →
              ∃ f j, EvStore f ∈ log (exec (world g) o') ∧
                     imencode JPEG_QUALITY f = Some j ∧ part = mjpeg_part j).
  { intros o'. split; [apply last_stored_run_inv, Hf|].
    intros part Hp. destruct (Hparts part Hp) as (f & j & H1 & H2 & H3).
    exists f, j. split; [apply exec_log_grows, H1|auto]. }
  assert (Hsleep : ∀ d,
            get_frame (sleep d (world g))
            = last_stored (log (sleep d (world g))) ∧
            ∀ part, part ∈ parts g →
              ∃ f j, EvStore f ∈ log (sleep d (world g)) ∧
                     imencode JPEG_QUALITY f = Some j ∧ part = mjpeg_part j).
  { intros d. split; [exact Hf|].
    intros part Hp. destruct (Hparts part Hp) as (f & j & H1 & H2 & H3).
    exists f, j. split; [cbn; rewrite elem_of_cons; auto|auto]. }
  destruct g as [w p ps]. unfold gen_step, gen_finally; cbn in *.
  destruct o as [| | | | |tid i]; destruct p; cbn; auto;
    try exact (Hexec Subscribe); try exact (Hexec Unsubscribe);
    try exact (Hexec (Loop tid i)); try apply Hsleep.
  unfold get_jpeg.
  destruct (get_frame w) as [f|] eqn:Ef; cbn; [|apply Hsleep].
  destruct (imencode JPEG_QUALITY f) as [j|] eqn:Ej; cbn; [|apply Hsleep].
  split; [congruence|]. intros part Hp.
  apply elem_of_cons in Hp as [->|Hp]; [|auto].
  exists f, j. split; [|auto]. apply last_stored_in. congruence.
Qed.

(** X14. The response of [/stream] declares the multipart boundary
    [frame], and every part the generator yields starts with that
    boundary line, has the content type image/jpeg, and carries the
    encoding of a frame that the capture thread stored in the buffer. *)
Theorem stream_parts_are_stored_frames w ops :
  get_frame w = last_stored (log w) →
  let r := stream w in
  let g := gen_run imencode JPEG_QUALITY ops (response_iter r) in
  response_mimetype r = "multipart/x-mixed-replace; boundary=" ++ "frame" ∧
  ∀ part, part ∈ parts g →
    ∃ f j, EvStore f ∈ log (world g) ∧
           imencode JPEG_QUALITY f = Some j ∧
           part = "--" ++ "frame" ++ crlf ++ "Content-Type: image/jpeg"
                  ++ crlf ++ crlf ++ j ++ crlf.
Proof.
  intros Hf. cbn zeta. split; [reflexivity|].
  assert (H : ∀ g0 : Stream Frame,
            (get_frame (world g0) = last_stored (log (world g0)) ∧
             ∀ part, part ∈ parts g0 →
               ∃ f j, EvStore f ∈ log (world g0) ∧
                      imencode JPEG_QUALITY f = Some j ∧ part = mjpeg_part j) →
            let g := gen_run imencode JPEG_QUALITY ops g0 in
            get_frame (world g) = last_stored (log (world g)) ∧
            ∀ part, part ∈ parts g →
              ∃ f j, EvStore f ∈ log (world g) ∧
                     imencode JPEG_QUALITY f = Some j ∧ part = mjpeg_part j).
  { induction ops as [|o ops IH]; intros g0 H0; [exact H0|].
    change (gen_run imencode JPEG_QUALITY (o :: ops) g0)
      with (gen_run imencode JPEG_QUALITY ops
              (gen_step imencode JPEG_QUALITY g0 o)).
    apply IH. apply (gen_step_parts g0 o H0). }
  destruct (H (gen_mjpeg_stream w)) as [_ Hparts].
  - split; [exact Hf|]. intros part Hp. cbn in Hp.
    apply elem_of_nil in Hp. contradiction.
  - exact Hparts.
Qed.

End FurtherHandlers.


(** *** The capture thread while subscribers remain *)

Lemma attended_exec w (o : op Frame) :
  attended w → 0 < subscribers (cam w) → 0 < subscribers (cam (exec w o)) →
  attended (exec w o).
Proof.
  intros (p & Hth & Hph & Hcap & Hrun & Hdone) Hs Hs'.
  open_world w. cbn in *. subst th.
  assert (Hkeep : ∀ (s' : Z) (e : event Frame),
            attended (mkWorld (mkCamera u c r f t fp s') hp [p] (e :: lg))).
  { intros s' e. exists p. split; [reflexivity|]. split; [exact Hph|].
    split; [exact Hcap|]. split; [exact Hrun|].
    intros Hp. destruct (Hdone Hp) as [A B]. split; [exact A|].
    cbn. rewrite elem_of_cons. auto. }
  destruct o as [| |tid i]; cbn in *.
  - unfold add_subscriber in *; cbn in *.
    destruct (Z.eqb_spec (s + 1) 1); [lia|]. apply Hkeep.
  - unfold remove_subscriber in *; cbn in *.
    destruct (Z.eqb_spec (Z.max 0 (s - 1)) 0) as [E|E].
    + exfalso. unfold stop in Hs'. cbn in Hs'.
      destruct c; cbn in Hs'; lia.
    + apply Hkeep.
  - destruct tid as [|tid].
    2:{ unfold loop_step; cbn. exists p. auto 10. }
    unfold loop_step; cbn.
    destruct p; cbn in *; try discriminate Hph;
      try (destruct (Hcap eq_refl) as [h ->]);
      try (rewrite (Hrun eq_refl));
      unfold statement, on_cap; cbn; split_matches;
      (eexists; split; [reflexivity|]; cbn;
       split; [reflexivity|];
       split; [intros Hq; first [discriminate Hq | eexists; reflexivity]|];
       split; [intros Hq; first [discriminate Hq | reflexivity | auto]|];
       intros Hq; first
         [ discriminate Hq
         | split; [reflexivity|rewrite elem_of_cons; auto]
         | destruct (Hdone eq_refl) as [A B]; split; [exact A|exact B] ]).
Qed.

(** X15. From a new camera, after the first [add_subscriber] and as
    long as the count stays positive, there is one capture thread, and it
    never ends with an error nor through the loop exit of lines 65-67:
    either it is still before or inside its loop with the flag set, or it
    is on the exit of lines 49-52 after a failed initial open, in which
    case it ends with the flag cleared. *)
Theorem thread_while_subscribed url tr :
  let w1 := add_subscriber (init (Frame:=Frame) url) in
  (∀ k, 0 < subscribers (cam (run (take k tr) w1))) →
  ∃ p, threads (run tr w1) = [p] ∧
       (opening p || in_loop p || giving_up p = true) ∧
       (giving_up p = false → running (cam (run tr w1)) = true) ∧
       (p = Done → running (cam (run tr w1)) = false ∧
                   EvGiveUp 0 ∈ log (run tr w1)).
Proof.
  cbn zeta.
  assert (H : ∀ w : World Frame, attended w →
              (∀ k, 0 < subscribers (cam (run (take k tr) w))) →
              attended (run tr w)).
  { induction tr as [|o tr IH]; intros w Ha Hs; [exact Ha|].
    change (run (o :: tr) w) with (run tr (exec w o)).
    pose proof (Hs 0%nat) as H0. pose proof (Hs 1%nat) as H1.
    cbn in H0, H1. apply IH.
    - apply attended_exec; assumption.
    - intros k. apply (Hs (S k)). }
  intros Hs.
  destruct (H (add_subscriber (init url))) as (p & H1 & H2 & _ & H4 & H5).
  - exists L47. cbn. repeat split; auto; discriminate.
  - exact Hs.
  - exists p. auto.
Qed.


End Further.


(** *** Start-up, again *)

(** X16. The module body serves exactly when RTSP_URL is set and the two
    integer settings (given or defaulted) parse; the settings are then the
    URL and the host as given and the two parsed integers. A setting that
    does not parse raises ValueError, also when RTSP_URL is missing, since
    lines 12-13 run before the test of line 15; the RuntimeError of line
    16 is raised exactly when RTSP_URL is missing and both integers
    parse. *)
Theorem startup_outcomes (int : string → option Z)
    (environ : gmap string string) :
  let port := Startup.environ_get_default environ "SERVER_PORT" "8080" in
  let quality := Startup.environ_get_default environ "JPEG_QUALITY" "80" in
  let host := Startup.environ_get_default environ "SERVER_HOST" "0.0.0.0" in
  (∀ s, Startup.startup int environ = Startup.Serve s ↔
        ∃ u p q, environ !! "RTSP_URL" = Some u ∧ int port = Some p ∧
                 int quality = Some q ∧ s = Startup.mkSettings u host p q) ∧
  (Startup.startup int environ = Startup.Raise Startup.ValueError ↔
     int port = None ∨ int quality = None) ∧
  (∀ msg, Startup.startup int environ
          = Startup.Raise (Startup.RuntimeError msg) ↔
     environ !! "RTSP_URL" = None ∧ is_Some (int port) ∧
     is_Some (int quality) ∧
     msg = "RTSP_URL environment variable must be set").
Proof.
  cbn zeta.
  unfold Startup.startup, Startup.environ_get, Startup.environ_get_default.
  destruct (int (default "8080" (environ !! "SERVER_PORT"))) as [p|];
    destruct (int (default "80" (environ !! "JPEG_QUALITY"))) as [q|];
    destruct (environ !! "RTSP_URL") as [u|];
    (split; [|split]).
  all: try (intros s; split;
            [ intros [= <-]; eauto 10
            | intros (u0 & p0 & q0 & Hu & Hp & Hq & ->); congruence ]).
  all: try (intros s; split;
            [ intros [=]
            | intros (u0 & p0 & q0 & Hu & Hp & Hq & ->); congruence ]).
  all: try (split; [intros [=] | intros [[=]|[=]]]; fail).
  all: try (split; [intros _; auto | intros _; reflexivity]; fail).
  all: try (intros msg; split;
            [ intros [=]
            | intros (Hu & [? Hp] & [? Hq] & ->); congruence ]; fail).
  all: try (intros msg; split;
            [ intros [= <-]; eauto 10
            | intros (_ & _ & _ & ->); reflexivity ]; fail).
Qed.


(** * Concrete runs *)



(** C4, counterexample: at count 0, with the thread holding a capture it
    opened late, one more [remove_subscriber] releases that capture. *)
Lemma extra_unsubscribe_releases_capture :
  subscribers (cam late_open) = 0 ∧ cap (cam late_open) = Some 0%nat ∧
  is_opened late_open 0%nat = true ∧
  cap (cam (remove_subscriber late_open)) = None ∧
  is_opened (remove_subscriber late_open) 0%nat = false ∧
  ¬ unsubscribe_floor_noop late_open.
Proof.
  repeat split; try reflexivity.
  intros [_ H]. destruct (H eq_refl) as [Hc _]. discriminate Hc.
Qed.

Lemma remove_subscriber_floor_witness :
  subscribers (cam (remove_subscriber late_open)) = 0 ∧
  remove_subscriber late_open = stop (emit EvRemoveSubscriber late_open) ∧
  same_state (remove_subscriber (init (Frame:=nat) camera_url))
             (init camera_url).
Proof.
  destruct (remove_subscriber_floor late_open) as (H1 & _ & _ & H4).
  destruct (H4 eq_refl) as [H5 _].
  destruct (remove_subscriber_floor (init (Frame:=nat) camera_url))
    as (_ & _ & _ & H6).
  destruct (H6 eq_refl) as [_ H7].
  split; [exact H1|]. split; [exact H5|]. apply H7. split; reflexivity.
Defined.

Lemma get_frame_latest_witness :
  get_frame (loop_step (answers true None) 0
               (loop_step (answers true (Some 7%nat)) 0
                  (loop_step (answers true None) 0 streaming))) = Some 7%nat.
Proof.
  destruct (get_frame_latest (Frame:=nat) camera_url
              [Subscribe; Loop 0%nat (answers true None);
               Loop 0%nat (answers true None);
               Loop 0%nat (answers true None)]) as (_ & _ & _ & H).
  apply (H 0%nat (answers true (Some 7%nat)) 0%nat 7%nat); reflexivity.
Defined.


Lemma exits_release_capture_witness :
  released_and_stale streaming7 (remove_subscriber streaming7) ∧
  get_frame (remove_subscriber streaming7) = Some 7%nat ∧
  released_and_stale (stop streaming7)
    (Nat.iter 4 (loop_step (answers true None) 0) (stop streaming7)).
Proof.
  destruct (exits_release_capture streaming7) as (_ & H2 & _).
  destruct H2 as [H2 _]; [vm_compute; discriminate|].
  destruct (exits_release_capture (stop streaming7)) as (_ & _ & H3 & _).
  destruct (H3 0%nat (answers true None)) as [_ H4]; try reflexivity.
  split; [exact H2|]. split; [|exact H4].
  destruct H2 as (_ & _ & _ & _ & ->). reflexivity.
Defined.



Lemma stream_unsubscribes_once_witness :
  let g := gen_run encode 80 [GNext; GTick] (gen_mjpeg_stream streaming7) in
  gpc g = GenSuspended ∧ parts g = [mjpeg_part "JPEG"] ∧
  gpc (gen_step encode 80 g GClose) = GenFinished ∧
  unsubscribed (log (world (gen_step encode 80 g GClose)))
    = S (unsubscribed (log streaming7)) ∧
  gen_step encode 80
    (gen_run encode 80 [GNext] (gen_mjpeg_stream (init camera_url))) GTick
  = gen_run encode 80 [GNext; GTick] (gen_mjpeg_stream (init camera_url)) ∧
  gpc (gen_run encode 80 [GNext; GTick] (gen_mjpeg_stream (init camera_url)))
    = GenRunning.
Proof.
  cbn zeta.
  destruct (stream_unsubscribes_once encode 80 streaming7 [GNext; GTick])
    as (_ & H & _).
  destruct (H GClose) as (H1 & _ & H2 & _); [right; split; auto; reflexivity|].
  destruct (stream_unsubscribes_once encode 80 (init camera_url) [GNext])
    as (_ & _ & H3).
  split; [reflexivity|]. split; [reflexivity|]. split; [exact H1|].
  split; [exact H2|]. split; [|reflexivity].
  rewrite H3; reflexivity.
Defined.

Lemma startup_defaults_witness :
  Startup.startup Startup.decimal ∅
    = Startup.Raise (Startup.RuntimeError
                       "RTSP_URL environment variable must be set") ∧
  Startup.startup Startup.decimal {[ "RTSP_URL" := camera_url ]}
    = Startup.Serve (Startup.mkSettings camera_url "0.0.0.0" 8080 80).
Proof.
  split.
  - destruct (startup_defaults Startup.decimal ∅) as [H _];
      [reflexivity|reflexivity|].
    destruct (H eq_refl) as [_ H']. apply H'; eexists; reflexivity.
  - destruct (startup_defaults Startup.decimal {[ "RTSP_URL" := camera_url ]})
      as [_ H]; [reflexivity|reflexivity|].
    destruct (H camera_url eq_refl) as [H' _]. apply H'; reflexivity.
Defined.

(** ** Concrete runs of the further properties *)

Lemma start_single_flight_witness :
  threads (Nat.iter 3 start (init (Frame:=nat) camera_url)) = [L47] ∧
  Nat.iter 3 start streaming = streaming.
Proof.
  destruct (start_single_flight 2 (init (Frame:=nat) camera_url))
    as (_ & _ & _ & H).
  destruct (H eq_refl) as [Ht _].
  destruct (start_single_flight 2 streaming) as (_ & _ & H2 & _).
  split; [exact Ht|]. apply H2. reflexivity.
Defined.

Lemma stop_twice_witness :
  stop (stop streaming7) = stop streaming7 ∧
  threads (stop streaming7) = [L53] ∧
  is_opened (stop streaming7) 1 = is_opened streaming7 1.
Proof.
  destruct (stop_twice streaming7) as (H1 & H2 & _ & _ & H5).
  split; [exact H1|]. split; [exact H2|]. apply H5. discriminate.
Defined.

Lemma restart_keeps_old_thread_witness :
  let w' := add_subscriber (remove_subscriber streaming) in
  threads w' = [L53; L47] ∧ running (cam w') = true ∧
  threads (loop_step (answers true None) 0 w') !! 0%nat = Some L54.
Proof.
  cbn zeta.
  destruct (restart_keeps_old_thread streaming 0 L53)
    as (H1 & _ & H3 & _ & _ & _ & H7); try reflexivity.
  split; [exact H3|]. split; [exact H1|]. apply H7. reflexivity.
Defined.

Lemma subscribe_unsubscribe_round_trip_witness :
  same_state (Nat.iter 2 remove_subscriber (Nat.iter 2 add_subscriber streaming))
             streaming ∧
  running (cam (Nat.iter 2 remove_subscriber
                  (Nat.iter 2 add_subscriber (init (Frame:=nat) camera_url))))
    = false.
Proof.
  destruct (subscribe_unsubscribe_round_trip 2 streaming)
    as (_ & _ & H3 & _); [vm_compute; discriminate|].
  destruct (subscribe_unsubscribe_round_trip 2 (init (Frame:=nat) camera_url))
    as (_ & _ & _ & H4); [vm_compute; discriminate|].
  split; [apply H3; reflexivity|].
  destruct H4 as [H4 _]; [reflexivity|discriminate|exact H4].
Defined.


Lemma frame_buffer_only_fills_witness :
  is_Some (get_frame (run [Unsubscribe; Subscribe] streaming7)) ∧
  last_frame_time (cam (run [Subscribe] (init (Frame:=nat) camera_url))) = 0%Q.
Proof.
  destruct (frame_buffer_only_fills camera_url [Unsubscribe; Subscribe]
              streaming7) as [H1 _].
  destruct (frame_buffer_only_fills (Frame:=nat) camera_url [Subscribe]
              (init camera_url)) as [_ H2].
  split; [apply H1; eexists; reflexivity|apply H2; reflexivity].
Defined.

Lemma thread_ends_after_stop_witness :
  ∃ q, threads (thread_steps 0 (answers true (Some 7%nat)) [] 8
                             (stop streaming)) !! 0%nat = Some q ∧
       finished q = true.
Proof.
  destruct (thread_ends_after_stop 0 streaming L53 (answers true (Some 7%nat))
              []) as [_ H]; [reflexivity|exact H].
Defined.

Lemma one_connection_at_a_time_witness :
  one_open_capture streaming ∧ all_closed (stop streaming).
Proof.
  destruct (one_connection_at_a_time (Frame:=nat) camera_url
              [Subscribe; Loop 0%nat (answers true None);
               Loop 0%nat (answers true None)]) as [H1 _];
    [vm_compute; lia|].
  destruct (one_connection_at_a_time (Frame:=nat) camera_url
              [Subscribe; Loop 0%nat (answers true None);
               Loop 0%nat (answers true None); Unsubscribe]) as [_ H2];
    [vm_compute; lia|].
  split; [exact H1|]. apply H2. reflexivity.
Defined.


Lemma interleaved_count_not_negative_witness :
  0 ≤ subscribers (cam (fst (interleave [0; 1; 1; 0; 1; 0; 1; 0]%nat
                               (init (Frame:=nat) camera_url,
                                [A83_load; R88_load])))).
Proof.
  apply (interleaved_count_not_negative
           (init (Frame:=nat) camera_url, [A83_load; R88_load])).
  - cbn. lia.
  - repeat constructor.
Defined.

Lemma drained_camera_restarts_witness :
  let w := run failed_open (init camera_url) in
  running (cam w) = false ∧
  running (cam (add_subscriber (remove_subscriber w))) = true ∧
  threads (add_subscriber (remove_subscriber w)) = [Done; L47].
Proof.
  cbn zeta.
  destruct (drained_camera_restarts (run failed_open (init camera_url)))
    as (_ & H2 & _ & H4 & _); [vm_compute; reflexivity|].
  split; [reflexivity|]. split; [exact H2|exact H4].
Defined.

Lemma cold_capture_unavailable_witness :
  snd (capture encode 80
         (replicate 4 (0%nat, answers true (Some 7%nat))) (init camera_url))
  = Abort 503 "Camera not ready".
Proof.
  destruct (cold_capture_unavailable encode 80
              (replicate 4 (0%nat, answers true (Some 7%nat)))
              (init camera_url) camera_url) as [_ H].
  apply H. cbn. lia.
Defined.

Lemma cold_capture_succeeds_witness :
  snd (capture encode 80
         (replicate 5 (0%nat, answers true (Some 7%nat))) (init camera_url))
  = SendFile "JPEG" "image/jpeg" true "capture.jpg".
Proof.
  exact (proj1 (cold_capture_succeeds encode 80 (init camera_url)
                  (answers true (Some 7%nat)) 7%nat "JPEG"
                  eq_refl eq_refl eq_refl eq_refl eq_refl)).
Defined.

Lemma stream_parts_are_stored_frames_witness :
  let g := gen_run encode 80 [GNext; GTick]
                   (response_iter (stream streaming7)) in
  parts g = [mjpeg_part "JPEG"] ∧
  ∃ f j, EvStore f ∈ log (world g) ∧ encode 80 f = Some j ∧
         mjpeg_part "JPEG"
         = "--" ++ "frame" ++ crlf ++ "Content-Type: image/jpeg"
           ++ crlf ++ crlf ++ j ++ crlf.
Proof.
  cbn zeta. split; [reflexivity|].
  destruct (stream_parts_are_stored_frames encode 80 streaming7
              [GNext; GTick]) as [_ H]; [reflexivity|].
  apply H. left.
Defined.

Lemma startup_outcomes_witness :
  Startup.startup Startup.decimal
    (<["SERVER_PORT" := "9000"]> {[ "RTSP_URL" := camera_url ]})
  = Startup.Serve (Startup.mkSettings camera_url "0.0.0.0" 9000 80) ∧
  Startup.startup Startup.decimal {[ "SERVER_PORT" := "http" ]}
  = Startup.Raise Startup.ValueError.
Proof.
  split.
  - destruct (startup_outcomes Startup.decimal
                (<["SERVER_PORT" := "9000"]> {[ "RTSP_URL" := camera_url ]}))
      as [H _].
    apply H. exists camera_url, 9000, 80. repeat split; reflexivity.
  - destruct (startup_outcomes Startup.decimal {[ "SERVER_PORT" := "http" ]})
      as (_ & H & _).
    apply H. left. reflexivity.
Defined.

Lemma thread_while_subscribed_witness :
  ∃ p, threads (run failed_open (init camera_url)) = [p] ∧
       (opening p || in_loop p || giving_up p = true) ∧
       (giving_up p = false →
          running (cam (run failed_open (init camera_url))) = true) ∧
       (p = Done →
          running (cam (run failed_open (init camera_url))) = false ∧
          EvGiveUp 0 ∈ log (run failed_open (init camera_url))).
Proof.
  apply (thread_while_subscribed (Frame:=nat) camera_url
           [Loop 0%nat (answers false None); Loop 0%nat (answers false None);
            Loop 0%nat (answers false None); Loop 0%nat (answers false None);
            Loop 0%nat (answers false None)]).
  intros [|[|[|[|[|[|k]]]]]]; vm_compute; reflexivity.
Defined.
